(** * A shallow embedding of the Belote rules engine (src/belote.py)

    Cards, the rank and value tables, the deck operations, the turn ring,
    the trick key and [Player.legal_moves] are pure functions.  The
    asynchronous orchestration in [Belote.start] and [Player.ask_to_play]
    is modelled in a small state/exception monad over the game state: the
    players' message queues are explicit lists, an [await] on an empty queue
    suspends the coroutine, and the Python exceptions raised by the code
    ([IndexError], [ValueError], [AssertionError]) abort the run. *)

From Stdlib Require Import List Arith Lia Bool ZArith NArith.
From Stdlib Require Import String Ascii.
Import List.
From Stdlib Require Import Permutation Sorting.Permutation.
Import ListNotations.
Open Scope nat_scope.

(** ** Cards *)

Inductive Rank := ACE | KING | QUEEN | JACK | TEN | NINE | EIGHT | SEVEN.
Inductive Suit := DIAMOND | HEARTS | SPADES | CLUBS.

(** Enum iteration order, as [itertools.product(Rank, Suit)] sees it. *)
Definition all_ranks : list Rank := [ACE; KING; QUEEN; JACK; TEN; NINE; EIGHT; SEVEN].
Definition all_suits : list Suit := [DIAMOND; HEARTS; SPADES; CLUBS].

Definition TRUMP_ORDER (r : Rank) : nat :=
  match r with
  | SEVEN => 0 | EIGHT => 1 | QUEEN => 2 | KING => 3
  | TEN => 4 | ACE => 5 | NINE => 6 | JACK => 7
  end.

Definition NORMAL_ORDER (r : Rank) : nat :=
  match r with
  | SEVEN => 0 | EIGHT => 1 | NINE => 2 | JACK => 3
  | QUEEN => 4 | KING => 5 | TEN => 6 | ACE => 7
  end.

Definition TRUMP_VALUE (r : Rank) : nat :=
  match r with
  | SEVEN => 0 | EIGHT => 0 | QUEEN => 3 | KING => 4
  | TEN => 10 | ACE => 11 | NINE => 14 | JACK => 20
  end.

Definition NORMAL_VALUE (r : Rank) : nat :=
  match r with
  | SEVEN => 0 | EIGHT => 0 | NINE => 0 | JACK => 2
  | QUEEN => 3 | KING => 4 | TEN => 10 | ACE => 11
  end.

Definition rank_eqb (a b : Rank) : bool :=
  match a, b with
  | ACE, ACE | KING, KING | QUEEN, QUEEN | JACK, JACK
  | TEN, TEN | NINE, NINE | EIGHT, EIGHT | SEVEN, SEVEN => true
  | _, _ => false
  end.

Definition suit_eqb (a b : Suit) : bool :=
  match a, b with
  | DIAMOND, DIAMOND | HEARTS, HEARTS | SPADES, SPADES | CLUBS, CLUBS => true
  | _, _ => false
  end.

(** [@dataclass(frozen=True) class Card]: equality is field-wise. *)
Record Card := mkCard { rank : Rank; suit : Suit }.

Definition card_eqb (a b : Card) : bool :=
  rank_eqb (rank a) (rank b) && suit_eqb (suit a) (suit b).

Definition get_value (c : Card) (trump : Suit) : nat :=
  if suit_eqb (suit c) trump then TRUMP_VALUE (rank c) else NORMAL_VALUE (rank c).

Definition get_rank (c : Card) (trump : Suit) : nat :=
  if suit_eqb (suit c) trump then TRUMP_ORDER (rank c) else NORMAL_ORDER (rank c).

(** The list built in [Deck.__init__] before [random.shuffle]. *)
Definition full_deck : list Card :=
  flat_map (fun r => map (fun s => mkCard r s) all_suits) all_ranks.

(** ** Players, seats and teams

    [Belote.players] holds the four connected players; a player is
    identified by its index in that list (its seat).  [set_teams] puts
    players[0] and players[2] in teams[0], players[1] and players[3] in
    teams[1]. *)

Definition seat := nat.

Inductive TeamId := Team0 | Team1.

Definition team_of (p : seat) : TeamId :=
  match p with 0 | 2 => Team0 | _ => Team1 end.

(** [@dataclass class Team]. *)
Record Team := mkTeam { score : nat; has_contract : bool }.

Definition team_eqb (a b : Team) : bool :=
  Nat.eqb (score a) (score b) && Bool.eqb (has_contract a) (has_contract b).

(** Python values compared by [==] in [legal_moves]: a [Player] (default
    identity equality) or a [Team] (dataclass field equality).  Objects of
    two different classes never compare equal: both [__eq__] return
    [NotImplemented] and Python falls back to identity. *)
Inductive PyObj := ObjPlayer (p : seat) | ObjTeam (t : Team).

Definition py_eq (a b : PyObj) : bool :=
  match a, b with
  | ObjPlayer p, ObjPlayer q => Nat.eqb p q
  | ObjTeam s, ObjTeam t => team_eqb s t
  | _, _ => false
  end.

(** ** Tricks *)

Definition Pile := list (seat * Card).

(** [Trick.dominant_suit]: the suit of the first card, [None] on an empty pile. *)
Definition dominant_suit (pile : Pile) : option Suit :=
  match pile with
  | [] => None
  | (_, first_card) :: _ => Some (suit first_card)
  end.

(** [Trick.pile_key_function]; tuples compare lexicographically. *)
Definition pile_key_function (trump : Suit) (pile : Pile) (pc : seat * Card) : nat * nat :=
  let card := snd pc in
  if suit_eqb (suit card) trump then (2, get_rank card trump)
  else if match dominant_suit pile with
          | Some d => suit_eqb (suit card) d
          | None => false
          end
  then (1, get_rank card trump)
  else (0, get_rank card trump).

Definition tuple_gt (a b : nat * nat) : bool :=
  Nat.ltb (fst b) (fst a) || (Nat.eqb (fst a) (fst b) && Nat.ltb (snd b) (snd a)).

(** Python's [max(iterable, key=k)] on a non-empty iterable: the first item
    is the running maximum, and an item replaces it only if its key is
    strictly greater. *)
Definition py_max {A} (key : A -> nat * nat) (first : A) (rest : list A) : A :=
  fold_left (fun best x => if tuple_gt (key x) (key best) then x else best) rest first.

(** [Trick.winning_player_card] on a pile [first :: rest]; [max] raises
    [ValueError] on an empty pile, which the callers never reach. *)
Definition winning_player_card (trump : Suit) (first : seat * Card) (rest : Pile) : seat * Card :=
  py_max (pile_key_function trump (first :: rest)) first rest.

Definition total_score (trump : Suit) (pile : Pile) : nat :=
  fold_right (fun pc acc => get_value (snd pc) trump + acc) 0 pile.

(** Python's [a or b] on lists: [a] if it is non-empty, else [b]. *)
Definition py_or {A} (a b : list A) : list A :=
  match a with [] => b | _ => a end.

(** [Player.legal_moves], for the player [self] whose [team] attribute is
    [self_team] and whose hand is [hand], on a trick played with [trump]. *)
Definition legal_moves (self : seat) (self_team : Team) (hand : list Card)
    (trump : Suit) (pile : Pile) : list Card :=
  match pile with
  | [] => hand
  | first :: rest =>
      let led := suit (snd first) in
      let '(winning_player, winning_card) := winning_player_card trump first rest in
      let same_suit := filter (fun card => suit_eqb (suit card) led) hand in
      if suit_eqb led trump then
        match same_suit with
        | [] => hand
        | _ =>
            if py_eq (ObjPlayer winning_player) (ObjTeam self_team) then same_suit
            else
              let higher_trumps :=
                filter (fun card => Nat.ltb (get_rank winning_card trump) (get_rank card trump))
                  same_suit in
              py_or higher_trumps same_suit
        end
      else
        match same_suit with
        | _ :: _ => same_suit
        | [] =>
            let trumps := filter (fun card => suit_eqb (suit card) trump) hand in
            match trumps with
            | _ :: _ =>
                if py_eq (ObjPlayer winning_player) (ObjTeam self_team) then trumps
                else
                  let higher_trumps :=
                    filter (fun card => Nat.ltb (get_rank winning_card trump) (get_rank card trump))
                      same_suit in
                  py_or higher_trumps trumps
            | [] => hand
            end
        end
  end.

(** ** Deck.cut

    [assert 0 <= index < len(self.cards)], the two chunk assertions, then
    [second_chunk + first_chunk]; a failed assertion is [None]. *)
Definition cut (cards : list Card) (index : Z) : option (list Card) :=
  if (0 <=? index)%Z && (index <? Z.of_nat (length cards))%Z then
    let first_chunk := firstn (Z.to_nat index) cards in
    let second_chunk := skipn (Z.to_nat index) cards in
    if (3 <=? length first_chunk) && (3 <=? length second_chunk)
    then Some (second_chunk ++ first_chunk)
    else None
  else None.

(** ** The key of the spec: (is trump, is of the led suit, rank in context) *)

Definition bool_lt (a b : bool) : bool := negb a && b.

Definition spec_key (trump led : Suit) (c : Card) : bool * bool * nat :=
  (suit_eqb (suit c) trump, suit_eqb (suit c) led, get_rank c trump).

Definition spec_key_lt (a b : bool * bool * nat) : bool :=
  let '(t1, l1, r1) := a in
  let '(t2, l2, r2) := b in
  bool_lt t1 t2 || (Bool.eqb t1 t2 && (bool_lt l1 l2 || (Bool.eqb l1 l2 && Nat.ltb r1 r2))).

(** Cards of one suit in a hand, as the comprehensions of [legal_moves]. *)
Definition of_suit (s : Suit) (hand : list Card) : list Card :=
  filter (fun card => suit_eqb (suit card) s) hand.

(** Example cards used by the scenarios. *)
Definition c7H := mkCard SEVEN HEARTS.
Definition c8H := mkCard EIGHT HEARTS.
Definition cQH := mkCard QUEEN HEARTS.
Definition cKH := mkCard KING HEARTS.
Definition c9C := mkCard NINE CLUBS.
Definition c7C := mkCard SEVEN CLUBS.
Definition c8D := mkCard EIGHT DIAMOND.
Definition cQS := mkCard QUEEN SPADES.
Definition no_team := mkTeam 0 false.

(** Spec scenario: trump led, an opponent holds Q♥, hand {7♥, K♥, 9♣}. *)
Example legal_moves_overtrump_scenario :
  legal_moves 1 no_team [c7H; cKH; c9C] HEARTS [(0, cQH)] = [cKH].
Proof. reflexivity. Qed.

(** Spec scenario: ♦ led, clubs are trump, hand {7♣}. *)
Example legal_moves_trump_in_scenario :
  legal_moves 1 no_team [c7C] CLUBS [(0, c8D)] = [c7C].
Proof. reflexivity. Qed.

(** ** Python strings

    A [str] is a sequence of Unicode code points; the suit symbols are
    single code points outside ASCII. *)

Definition pystr := list N.

Definition py (s : String.string) : pystr :=
  map Ascii.N_of_ascii (String.list_ascii_of_string s).

Fixpoint pystr_eqb (a b : pystr) : bool :=
  match a, b with
  | [], [] => true
  | x :: a', y :: b' => N.eqb x y && pystr_eqb a' b'
  | _, _ => false
  end.

Definition RANK_VALUE (r : Rank) : pystr :=
  match r with
  | ACE => py "A"%string | KING => py "K"%string | QUEEN => py "Q"%string | JACK => py "J"%string
  | TEN => py "10"%string | NINE => py "9"%string | EIGHT => py "8"%string | SEVEN => py "7"%string
  end.

(** U+2666, U+2665, U+2660, U+2663. *)
Definition SUIT_VALUE (s : Suit) : pystr :=
  match s with
  | DIAMOND => [9830%N] | HEARTS => [9829%N] | SPADES => [9824%N] | CLUBS => [9827%N]
  end.

(** [Rank(v)] and [Suit(v)]: lookup by value; [None] is the [ValueError]. *)
Definition rank_of_value (v : pystr) : option Rank :=
  find (fun r => pystr_eqb (RANK_VALUE r) v) all_ranks.

Definition suit_of_value (v : pystr) : option Suit :=
  find (fun s => pystr_eqb (SUIT_VALUE s) v) all_suits.

(** [Card.from_string]; [None] is the [ValueError] it raises. *)
Definition from_string (s : pystr) : option Card :=
  if Nat.ltb (length s) 2 then None
  else
    match rank_of_value (firstn (length s - 1) s), suit_of_value (skipn (length s - 1) s) with
    | Some r, Some su => Some (mkCard r su)
    | _, _ => None
    end.

(** ** The turn ring

    [initialize_double_linked_list(players)] links each player to the next
    one in the list and the last one back to the first; a pair
    [(previous_player, player)] records [previous_player.next = player] and
    [player.previous = previous_player]. *)

Definition players : list seat := [0; 1; 2; 3].

Fixpoint link (previous_player : seat) (ps : list seat) : list (seat * seat) :=
  match ps with
  | [] => []
  | player :: ps' => (previous_player, player) :: link player ps'
  end.

Definition initialize_double_linked_list (ps : list seat) : list (seat * seat) :=
  link (last ps 0) ps.

Definition ring : list (seat * seat) := initialize_double_linked_list players.

(** [p.next] and [p.previous]; every seat of [players] has both. *)
Definition next_of (p : seat) : seat :=
  match find (fun l => Nat.eqb (fst l) p) ring with Some (_, q) => q | None => p end.

Definition previous_of (p : seat) : seat :=
  match find (fun l => Nat.eqb (snd l) p) ring with Some (q, _) => q | None => p end.

(** The [while True] loop of [iter_from_next]: yield, stop after [self],
    else move to [player.next].  On the ring of four it stops after at most
    four steps, which the fuel covers ([iter_from_next_seats]). *)
Fixpoint iter_go (self : seat) (fuel : nat) (player : seat) : list seat :=
  match fuel with
  | 0 => []
  | S fuel' =>
      player :: (if Nat.eqb player self then [] else iter_go self fuel' (next_of player))
  end.

Definition iter_from_next (self : seat) : list seat := iter_go self 4 (next_of self).

Definition iter_from_self (self : seat) : list seat := iter_from_next (previous_of self).

(** ** Game state and the effects of the coroutine *)

(** What the engine writes to a player's transport. *)
Inductive Msg :=
| MsgDealer (number : nat)
| MsgTheCard (c : Card)
| MsgYourHand (h : list Card)
| MsgTakeQuestion
| MsgTook (number : nat)
| MsgTrumpQuestion (choices : list pystr)
| MsgChose (number : nat) (s : pystr)
| MsgWhatPlaying (moves : list Card)
| MsgPlaying (number : nat) (c : Card).

Record Game := mkGame {
  cards : list Card;              (** [Deck.cards]; the top of the deck is the last element *)
  hand_of : seat -> list Card;    (** [Player.hand] *)
  queue_of : seat -> list pystr;  (** [Player.queue], oldest message first *)
  sent : list (seat * Msg);       (** everything written to the transports, in order *)
  team_state : TeamId -> Team;    (** [Belote.teams] *)
  game_trump : Suit;              (** [Belote.trump], assigned by the bidding before any read *)
  trick_pile : Pile               (** [Trick.pile] of the trick being played *)
}.

Definition upd {A} (f : seat -> A) (p : seat) (v : A) : seat -> A :=
  fun q => if Nat.eqb q p then v else f q.

Definition upd_team (f : TeamId -> Team) (t : TeamId) (v : Team) : TeamId -> Team :=
  fun u => match t, u with
           | Team0, Team0 | Team1, Team1 => v
           | _, _ => f u
           end.

Inductive Exn := IndexError | ValueError | AssertionError.

(** [Suspend]: the coroutine awaits a message on an empty queue. *)
Inductive Outcome (A : Type) := Ret (a : A) | Raise (e : Exn) | Suspend.
Arguments Ret {A} a.
Arguments Raise {A} e.
Arguments Suspend {A}.

Definition M (A : Type) := Game -> Outcome A * Game.

Definition ret {A} (a : A) : M A := fun g => (Ret a, g).

Definition bind {A B} (m : M A) (k : A -> M B) : M B :=
  fun g =>
    match m g with
    | (Ret a, g') => k a g'
    | (Raise e, g') => (Raise e, g')
    | (Suspend, g') => (Suspend, g')
    end.

Definition raise {A} (e : Exn) : M A := fun g => (Raise e, g).
Definition get : M Game := fun g => (Ret g, g).
Definition put (g : Game) : M unit := fun _ => (Ret tt, g).

Notation "x <- m ;; k" := (bind m (fun x => k))
  (at level 61, m at next level, right associativity).
Notation "m ;; k" := (bind m (fun _ => k)) (at level 61, right associativity).

Fixpoint for_each {A} (xs : list A) (body : A -> M unit) : M unit :=
  match xs with
  | [] => ret tt
  | x :: xs' => body x;; for_each xs' body
  end.

Definition set_cards (d : list Card) : M unit :=
  fun g => (Ret tt, mkGame d (hand_of g) (queue_of g) (sent g) (team_state g) (game_trump g) (trick_pile g)).
Definition set_hand (p : seat) (h : list Card) : M unit :=
  fun g => (Ret tt, mkGame (cards g) (upd (hand_of g) p h) (queue_of g) (sent g) (team_state g) (game_trump g) (trick_pile g)).
Definition set_queue (p : seat) (q : list pystr) : M unit :=
  fun g => (Ret tt, mkGame (cards g) (hand_of g) (upd (queue_of g) p q) (sent g) (team_state g) (game_trump g) (trick_pile g)).
Definition set_team (t : TeamId) (v : Team) : M unit :=
  fun g => (Ret tt, mkGame (cards g) (hand_of g) (queue_of g) (sent g) (upd_team (team_state g) t v) (game_trump g) (trick_pile g)).
Definition set_trump (s : Suit) : M unit :=
  fun g => (Ret tt, mkGame (cards g) (hand_of g) (queue_of g) (sent g) (team_state g) s (trick_pile g)).
Definition set_pile (pl : Pile) : M unit :=
  fun g => (Ret tt, mkGame (cards g) (hand_of g) (queue_of g) (sent g) (team_state g) (game_trump g) pl).

(** [Player.send_message]: the transport write. *)
Definition send_message (p : seat) (m : Msg) : M unit :=
  fun g => (Ret tt, mkGame (cards g) (hand_of g) (queue_of g) (sent g ++ [(p, m)]) (team_state g) (game_trump g) (trick_pile g)).

(** [await Player.recv_message()]: [queue.get()]. *)
Definition recv_message (p : seat) : M pystr :=
  g <- get;;
  match queue_of g p with
  | [] => fun g' => (Suspend, g')
  | m :: rest => set_queue p rest;; ret m
  end.

(** ** Deck operations *)

(** [self.cards.pop()]: remove and return the last card; [IndexError] on an
    empty deck. *)
Definition deck_pop : M Card :=
  g <- get;;
  match cards g with
  | [] => raise IndexError
  | c :: r => set_cards (removelast (c :: r));; ret (last (c :: r) c)
  end.

Fixpoint pop_n (nb_cards : nat) : M (list Card) :=
  match nb_cards with
  | 0 => ret []
  | S k => c <- deck_pop;; cs <- pop_n k;; ret (c :: cs)
  end.

(** [Deck.pop_many], with its [assert len(cards) == nb_cards]. *)
Definition pop_many (nb_cards : nat) : M (list Card) :=
  cs <- pop_n nb_cards;;
  if Nat.eqb (length cs) nb_cards then ret cs else raise AssertionError.

(** [Deck.peek]: [self.cards[-1]]. *)
Definition peek : M Card :=
  g <- get;;
  match cards g with
  | [] => raise IndexError
  | c :: r => ret (last (c :: r) c)
  end.

(** ** Dealing *)

Definition add_to_hand (p : seat) (cs : list Card) : M unit :=
  g <- get;; set_hand p (hand_of g p ++ cs).

Definition deal_5_cards (self : seat) : M unit :=
  for_each (iter_from_next self) (fun player => cs <- pop_many 2;; add_to_hand player cs);;
  for_each (iter_from_next self) (fun player => cs <- pop_many 3;; add_to_hand player cs).

Definition deal_remaining (self : seat) (bidder : seat) : M unit :=
  cs <- pop_many 1;; add_to_hand bidder cs;;
  for_each (iter_from_next self)
    (fun player =>
       let nb_cards := if Nat.eqb player bidder then 2 else 3 in
       cs <- pop_many nb_cards;; add_to_hand player cs).

(** ** Bidding (lines 314-341 of [Belote.start]) *)

Definition broadcast (m : Msg) : M unit := for_each players (fun p => send_message p m).

Definition send_hand (p : seat) : M unit :=
  g <- get;; send_message p (MsgYourHand (hand_of g p)).

Definition send_hands : M unit := for_each players send_hand.

(** The first loop: offer the peeked card; the first ["yes"] takes it. *)
Fixpoint take_phase (card : Card) (ps : list seat) : M (option seat) :=
  match ps with
  | [] => ret None
  | player :: ps' =>
      send_message player MsgTakeQuestion;;
      answer <- recv_message player;;
      if pystr_eqb answer (py "yes"%string) then
        set_trump (suit card);; broadcast (MsgTook (S player));; ret (Some player)
      else take_phase card ps'
  end.

(** [[suit.value for suit in Suit if suit != Suit(card.suit)]]. *)
Definition suit_choices (card : Card) : list pystr :=
  map SUIT_VALUE (filter (fun s => negb (suit_eqb s (suit card))) all_suits).

(** The [else] branch: ask for one of the other suits. *)
Fixpoint choice_phase (choices : list pystr) (ps : list seat) : M (option seat) :=
  match ps with
  | [] => ret None
  | player :: ps' =>
      send_message player (MsgTrumpQuestion choices);;
      s <- recv_message player;;
      if existsb (pystr_eqb s) choices then
        match suit_of_value s with
        | Some t => set_trump t;; broadcast (MsgChose (S player) s);; ret (Some player)
        | None => raise ValueError
        end
      else choice_phase choices ps'
  end.

Definition suit_choice_phase (dealer : seat) (card : Card) : M (option seat) :=
  choice_phase (suit_choices card) (iter_from_next dealer).

(** [bidder.team.has_contract = True], or the early [return]. *)
Definition finish_bidding (resolved : option seat) : M (option seat) :=
  match resolved with
  | Some bidder =>
      g <- get;;
      let t := team_state g (team_of bidder) in
      set_team (team_of bidder) (mkTeam (score t) true);; ret (Some bidder)
  | None => ret None
  end.

Definition bidding_phase (dealer : seat) : M (option seat) :=
  card <- peek;;
  broadcast (MsgTheCard card);;
  send_hands;;
  taken <- take_phase card (iter_from_next dealer);;
  resolved <- match taken with
              | Some bidder => ret (Some bidder)
              | None => suit_choice_phase dealer card
              end;;
  finish_bidding resolved.

(** ** Playing tricks *)

(** [list.remove]: drop the first equal element, [ValueError] if none. *)
Fixpoint py_remove (c : Card) (l : list Card) : option (list Card) :=
  match l with
  | [] => None
  | x :: r => if card_eqb x c then Some r else option_map (cons x) (py_remove c r)
  end.

(** [Player.plays]. *)
Definition plays (self : seat) (card : Card) : M unit :=
  g <- get;;
  set_pile (trick_pile g ++ [(self, card)]);;
  match py_remove card (hand_of g self) with
  | None => raise ValueError
  | Some h =>
      set_hand self h;;
      for_each (iter_from_next self) (fun player => send_message player (MsgPlaying (S self) card))
  end.

(** [Player.ask_to_play]: no handler around [from_string] or the
    assertion, so both errors propagate. *)
Definition ask_to_play (self : seat) : M unit :=
  g <- get;;
  let moves := legal_moves self (team_state g (team_of self)) (hand_of g self)
                 (game_trump g) (trick_pile g) in
  send_message self (MsgWhatPlaying moves);;
  s <- recv_message self;;
  match from_string s with
  | None => raise ValueError
  | Some card => if existsb (card_eqb card) moves then plays self card else raise AssertionError
  end.

Definition add_score (t : TeamId) (n : nat) : M unit :=
  g <- get;;
  let v := team_state g t in
  set_team t (mkTeam (score v + n) (has_contract v)).

(** One iteration of the trick loop of [Belote.start]. *)
Definition play_trick (winner : seat) : M seat :=
  set_pile [];;
  for_each (iter_from_self winner) ask_to_play;;
  g <- get;;
  match trick_pile g with
  | [] => raise ValueError
  | first :: rest =>
      let w := fst (winning_player_card (game_trump g) first rest) in
      add_score (team_of w) (total_score (game_trump g) (first :: rest));;
      ret w
  end.

Fixpoint play_tricks (nb_tricks : nat) (winner : seat) : M seat :=
  match nb_tricks with
  | 0 => ret winner
  | S k => w <- play_trick winner;; play_tricks k w
  end.

(** Lines 346-356; the final prints only read the scores. *)
Definition play_deal (dealer : seat) : M unit :=
  winner <- play_tricks 8 (next_of dealer);;
  add_score (team_of winner) 10.

(** [Belote.start(dealer)]. *)
Definition start (dealer : seat) : M unit :=
  broadcast (MsgDealer (S dealer));;
  deal_5_cards dealer;;
  r <- bidding_phase dealer;;
  match r with
  | None => ret tt
  | Some bidder => deal_remaining dealer bidder;; send_hands;; play_deal dealer
  end.

(** ** Sample states *)

(** Twelve cards left after [deal_5_cards]; seat 1 answers "yes". *)
Definition g_bid : Game :=
  mkGame (firstn 12 full_deck) (fun _ => [])
    (fun p => if Nat.eqb p 1 then [py "yes"%string] else [py "no"%string])
    [] (fun _ => mkTeam 0 false) HEARTS [].

(** Seat 0 leads a trick holding 7♥ and 9♣; its first answer is the
    malformed token ["X9"], the next one the legal card ["7♥"]. *)
Definition g_play : Game :=
  mkGame [] (fun p => if Nat.eqb p 0 then [c7H; c9C] else [])
    (fun p => if Nat.eqb p 0 then [py "X9"%string; py "7"%string ++ SUIT_VALUE HEARTS] else [])
    [] (fun _ => mkTeam 0 false) HEARTS [].

(** The token a player types for a card: the rank's value, then the suit's. *)
Definition card_token (c : Card) : pystr := RANK_VALUE (rank c) ++ SUIT_VALUE (suit c).

(** A full deal ready to be played (trump ♥, dealer seat 0): each seat
    holds eight consecutive cards of [full_deck], and its inbox holds
    eight legal answers, the first legal move offered at each prompt. *)
Definition g_deal : Game :=
  mkGame [] (fun p => firstn 8 (skipn (8 * p) full_deck))
    (fun p => map card_token
       match p with
       | 0 => [mkCard ACE DIAMOND; mkCard ACE HEARTS; mkCard KING HEARTS; mkCard ACE SPADES;
               mkCard ACE CLUBS; mkCard KING DIAMOND; mkCard KING SPADES; mkCard KING CLUBS]
       | 1 => [mkCard QUEEN DIAMOND; mkCard JACK HEARTS; mkCard QUEEN HEARTS; mkCard QUEEN SPADES;
               mkCard QUEEN CLUBS; mkCard JACK DIAMOND; mkCard JACK SPADES; mkCard JACK CLUBS]
       | 2 => [mkCard TEN DIAMOND; mkCard TEN HEARTS; mkCard NINE HEARTS; mkCard TEN SPADES;
               mkCard TEN CLUBS; mkCard NINE DIAMOND; mkCard NINE SPADES; mkCard NINE CLUBS]
       | 3 => [mkCard EIGHT DIAMOND; mkCard EIGHT HEARTS; mkCard SEVEN HEARTS; mkCard EIGHT SPADES;
               mkCard EIGHT CLUBS; mkCard SEVEN DIAMOND; mkCard SEVEN SPADES; mkCard SEVEN CLUBS]
       | _ => []
       end)
    [] (fun _ => mkTeam 0 false) HEARTS [].

(** Twelve cards left after [deal_5_cards]; every seat declines the
    shown card and then answers ♠. *)
Definition g_decline : Game :=
  mkGame (firstn 12 full_deck) (fun _ => [])
    (fun _ => [py "no"%string; SUIT_VALUE SPADES])
    [] (fun _ => mkTeam 0 false) HEARTS [].





(** The spec's reading of the take phase: the first seat, in the given
    order, whose next answer is exactly ["yes"]. *)
Definition first_yes (g : Game) (order : list seat) : option seat :=
  find (fun p => pystr_eqb (hd [] (queue_of g p)) (py "yes"%string)) order.

(** The first seat, in the given order, whose next answer is one of
    [choices]. *)
Definition first_choice (g : Game) (choices : list pystr) (order : list seat) : option seat :=
  find (fun p => existsb (pystr_eqb (hd [] (queue_of g p))) choices) order.

(** * Proofs *)

Lemma rank_eqb_spec a b : rank_eqb a b = true <-> a = b.
Proof. destruct a, b; simpl; split; congruence. Qed.

Lemma suit_eqb_spec a b : suit_eqb a b = true <-> a = b.
Proof. destruct a, b; simpl; split; congruence. Qed.

Lemma suit_eqb_refl a : suit_eqb a a = true.
Proof. apply suit_eqb_spec; reflexivity. Qed.

Lemma card_eqb_spec a b : card_eqb a b = true <-> a = b.
Proof.
  destruct a as [ra sa], b as [rb sb]; unfold card_eqb; simpl.
  rewrite andb_true_iff, rank_eqb_spec, suit_eqb_spec.
  split; [intros [-> ->]; reflexivity | intros H; inversion H; auto].
Qed.


Lemma py_eq_player_team p t : py_eq (ObjPlayer p) (ObjTeam t) = false.
Proof. reflexivity. Qed.

Lemma filter_nil_of_nil {A} (f : A -> bool) : filter f [] = [].
Proof. reflexivity. Qed.

Lemma of_suit_sub s hand : incl (of_suit s hand) hand.
Proof. intros c Hc; unfold of_suit in Hc; apply filter_In in Hc; tauto. Qed.

Lemma of_suit_suit s hand c : In c (of_suit s hand) -> suit c = s.
Proof.
  intros Hc; unfold of_suit in Hc; apply filter_In in Hc.
  destruct Hc as [_ Hs]; now apply suit_eqb_spec.
Qed.

Lemma of_suit_nil s hand :
  of_suit s hand = [] <-> forall c, In c hand -> suit c <> s.
Proof.
  unfold of_suit; split.
  - intros H c Hc Hs. assert (In c (filter (fun card => suit_eqb (suit card) s) hand)) as Hin.
    { apply filter_In; split; [exact Hc | apply suit_eqb_spec; exact Hs]. }
    rewrite H in Hin; contradiction.
  - intros H. destruct (filter (fun card => suit_eqb (suit card) s) hand) as [|c l] eqn:E; [reflexivity|].
    exfalso. assert (In c (filter (fun card => suit_eqb (suit card) s) hand)) as Hin by (rewrite E; left; reflexivity).
    apply filter_In in Hin as [Hc Hs]. apply suit_eqb_spec in Hs. exact (H c Hc Hs).
Qed.

(** The shape of [legal_moves] on a non-empty pile: the Player/Team
    comparisons are always false, so the code reduces to this. *)
Lemma legal_moves_cons self t hand trump first rest :
  legal_moves self t hand trump (first :: rest) =
  let led := suit (snd first) in
  let winning_card := snd (winning_player_card trump first rest) in
  if suit_eqb led trump then
    match of_suit led hand with
    | [] => hand
    | same_suit =>
        py_or (filter (fun card => Nat.ltb (get_rank winning_card trump) (get_rank card trump))
                 same_suit) same_suit
    end
  else
    match of_suit led hand with
    | _ :: _ => of_suit led hand
    | [] => match of_suit trump hand with [] => hand | trumps => trumps end
    end.
Proof.
  unfold legal_moves, of_suit; cbv zeta.
  destruct (winning_player_card trump first rest) as [wp wc]; simpl.
  destruct (suit_eqb (suit (snd first)) trump).
  - destruct (filter _ hand); reflexivity.
  - destruct (filter (fun card => suit_eqb (suit card) (suit (snd first))) hand); [|reflexivity].
    destruct (filter (fun card => suit_eqb (suit card) trump) hand); reflexivity.
Qed.

(** C3: a plain (non-trump) suit was led.  A player who can follow suit
    must; otherwise a player holding trumps gets exactly them; otherwise
    the whole hand is legal. *)
Theorem legal_moves_plain_suit_led (self : seat) (t : Team) (hand : list Card)
    (trump : Suit) (first : seat * Card) (rest : Pile)
    (Hplain : suit (snd first) <> trump) :
  let led := suit (snd first) in
  let moves := legal_moves self t hand trump (first :: rest) in
  (of_suit led hand <> [] -> moves = of_suit led hand) /\
  (of_suit led hand = [] -> of_suit trump hand <> [] -> moves = of_suit trump hand) /\
  (of_suit led hand = [] -> of_suit trump hand = [] -> moves = hand).
Proof.
  cbv zeta. rewrite legal_moves_cons; cbv zeta.
  assert (Hf : suit_eqb (suit (snd first)) trump = false).
  { destruct (suit_eqb (suit (snd first)) trump) eqn:E; [|reflexivity].
    apply suit_eqb_spec in E; contradiction. }
  rewrite Hf.
  repeat split.
  - intros Hne. destruct (of_suit (suit (snd first)) hand); [contradiction|reflexivity].
  - intros Hn Ht. rewrite Hn. destruct (of_suit trump hand); [contradiction|reflexivity].
  - intros Hn Ht. rewrite Hn, Ht. reflexivity.
Qed.

Lemma legal_moves_plain_suit_led_witness :
  suit (snd (0, c8D)) <> CLUBS /\
  legal_moves 1 no_team [c7C] CLUBS [(0, c8D)] = of_suit CLUBS [c7C].
Proof.
  pose proof (legal_moves_plain_suit_led 1 no_team [c7C] CLUBS (0, c8D) []
                ltac:(simpl; discriminate)) as [_ [H _]].
  split; [simpl; discriminate|].
  apply H; [reflexivity | simpl; discriminate].
Defined.

Lemma py_or_filter_nonempty {A} (f : A -> bool) (l : list A) :
  l <> [] -> py_or (filter f l) l <> [] /\ incl (py_or (filter f l) l) l.
Proof.
  intros Hl. unfold py_or.
  destruct (filter f l) as [|c r] eqn:E.
  - split; [exact Hl | apply incl_refl].
  - split; [discriminate|]. rewrite <- E. intros x Hx. apply filter_In in Hx; tauto.
Qed.

(** C9: on a non-empty hand, [legal_moves] is a non-empty sub-list of the
    hand, and when a plain suit was led and the hand can follow it, every
    legal card is of the led suit. *)
Theorem legal_moves_nonempty_subset (self : seat) (t : Team) (hand : list Card)
    (trump : Suit) (pile : Pile) (Hhand : hand <> []) :
  let moves := legal_moves self t hand trump pile in
  moves <> [] /\ incl moves hand /\
  (forall first rest, pile = first :: rest -> suit (snd first) <> trump ->
     (exists c, In c hand /\ suit c = suit (snd first)) ->
     forall c, In c moves -> suit c = suit (snd first)).
Proof.
  cbv zeta. destruct pile as [|first rest].
  - split; [exact Hhand|]. split; [apply incl_refl|]. intros f r H; discriminate.
  - rewrite legal_moves_cons; cbv zeta.
    destruct (suit_eqb (suit (snd first)) trump) eqn:Et.
    + split; [|split].
      * destruct (of_suit (suit (snd first)) hand) as [|c l] eqn:E; [exact Hhand|].
        rewrite <- E. apply py_or_filter_nonempty. rewrite E; discriminate.
      * destruct (of_suit (suit (snd first)) hand) as [|c l] eqn:E; [apply incl_refl|].
        rewrite <- E. eapply incl_tran; [apply py_or_filter_nonempty|apply of_suit_sub].
        rewrite E; discriminate.
      * intros f r Hp Hnt. inversion Hp; subst. apply suit_eqb_spec in Et. contradiction.
    + destruct (of_suit (suit (snd first)) hand) as [|c l] eqn:E.
      * assert (Hnone : forall c, In c hand -> suit c <> suit (snd first))
          by (apply of_suit_nil; exact E).
        split; [|split].
        -- destruct (of_suit trump hand) as [|d m] eqn:Et2; [exact Hhand | discriminate].
        -- destruct (of_suit trump hand) as [|d m] eqn:Et2; [apply incl_refl|].
           rewrite <- Et2; apply of_suit_sub.
        -- intros f r Hp Hnt [c [Hc Hs]]. inversion Hp; subst.
           exfalso; exact (Hnone c Hc Hs).
      * rewrite <- E. split; [|split].
        -- rewrite E; discriminate.
        -- apply of_suit_sub.
        -- intros f r Hp Hnt _ d Hd. inversion Hp; subst. now apply of_suit_suit in Hd.
Qed.

Lemma legal_moves_nonempty_subset_witness :
  legal_moves 1 no_team [c7H; cKH; c9C] HEARTS [(0, cQH)] <> [] /\
  incl (legal_moves 1 no_team [c7H; cKH; c9C] HEARTS [(0, cQH)]) [c7H; cKH; c9C].
Proof.
  pose proof (legal_moves_nonempty_subset 1 no_team [c7H; cKH; c9C] HEARTS [(0, cQH)]
                ltac:(discriminate)) as [H1 [H2 _]].
  split; [exact H1 | exact H2].
Defined.

(** C1 (trump led, teammate winning).  Seat 0 leads Q♥ with hearts trump,
    seat 1 follows with 7♥, and seat 2 -- seat 0's partner, who holds the
    best card of the trick -- is to play with {8♥, K♥, 9♣}.  The legal set
    is the higher trump alone, not all the player's trumps: the test
    [winning_player == self.team] compares a [Player] with a [Team] and is
    never true. *)
Theorem legal_moves_teammate_winning_trump_led :
  let hand := [c8H; cKH; c9C] in
  team_of (fst (winning_player_card HEARTS (0, cQH) [(1, c7H)])) = team_of 2 /\
  of_suit HEARTS hand = [c8H; cKH] /\
  legal_moves 2 no_team hand HEARTS [(0, cQH); (1, c7H)] = [cKH].
Proof. repeat split; reflexivity. Qed.

(** C7: [Deck.cut] succeeds exactly when both chunks have at least three
    cards, and then the back chunk becomes the front, nothing lost or
    duplicated and each chunk kept in order. *)
Theorem cut_rotation (cards : list Card) (index : Z) :
  (cut cards index <> None <-> (3 <= index /\ index <= Z.of_nat (length cards) - 3)%Z) /\
  (forall res, cut cards index = Some res ->
     res = skipn (Z.to_nat index) cards ++ firstn (Z.to_nat index) cards /\
     Permutation res cards).
Proof.
  unfold cut.
  destruct ((0 <=? index)%Z && (index <? Z.of_nat (length cards))%Z) eqn:Hr.
  - apply andb_true_iff in Hr as [H0 H1]. apply Z.leb_le in H0. apply Z.ltb_lt in H1.
    rewrite length_firstn, length_skipn.
    destruct ((3 <=? Nat.min (Z.to_nat index) (length cards)) &&
              (3 <=? length cards - Z.to_nat index)) eqn:Hc.
    + apply andb_true_iff in Hc as [Hc1 Hc2]. apply Nat.leb_le in Hc1, Hc2.
      split.
      * split; [intros _; lia | discriminate].
      * intros res Hres; inversion Hres; subst; split; [reflexivity|].
        rewrite <- (firstn_skipn (Z.to_nat index) cards) at 3.
        apply Permutation_app_comm.
    + split.
      * split; [intros H; contradiction | intros [Ha Hb]; exfalso].
        apply andb_false_iff in Hc as [Hc|Hc]; apply Nat.leb_gt in Hc; lia.
      * intros res Hres; discriminate.
  - split.
    + split; [intros H; contradiction | intros [Ha Hb]; exfalso].
      apply andb_false_iff in Hr as [Hr|Hr]; [apply Z.leb_gt in Hr | apply Z.ltb_ge in Hr]; lia.
    + intros res Hres; discriminate.
Qed.

Lemma cut_rotation_witness :
  cut full_deck 5 = Some (skipn 5 full_deck ++ firstn 5 full_deck) /\
  Permutation (skipn 5 full_deck ++ firstn 5 full_deck) full_deck.
Proof.
  pose proof (cut_rotation full_deck 5) as [_ H].
  assert (Hc : cut full_deck 5 = Some (skipn 5 full_deck ++ firstn 5 full_deck))
    by (vm_compute; reflexivity).
  split; [exact Hc|]. exact (proj2 (H _ Hc)).
Defined.

(** *** Python's [max] and the trick key *)

Lemma tuple_gt_false a b :
  tuple_gt a b = false <-> fst a < fst b \/ (fst a = fst b /\ snd a <= snd b).
Proof.
  destruct a as [a1 a2], b as [b1 b2]; unfold tuple_gt; simpl.
  rewrite orb_false_iff, andb_false_iff, Nat.ltb_ge, Nat.eqb_neq, Nat.ltb_ge.
  lia.
Qed.

Lemma tuple_gt_true a b :
  tuple_gt a b = true <-> fst b < fst a \/ (fst a = fst b /\ snd b < snd a).
Proof.
  destruct a as [a1 a2], b as [b1 b2]; unfold tuple_gt; simpl.
  rewrite orb_true_iff, andb_true_iff, Nat.ltb_lt, Nat.eqb_eq, Nat.ltb_lt.
  lia.
Qed.

Lemma tuple_le_trans a b c :
  tuple_gt a b = false -> tuple_gt b c = false -> tuple_gt a c = false.
Proof. rewrite !tuple_gt_false; lia. Qed.

Lemma py_max_spec {A} (key : A -> nat * nat) (rest : list A) : forall first,
  In (py_max key first rest) (first :: rest) /\
  forall x, In x (first :: rest) -> tuple_gt (key x) (key (py_max key first rest)) = false.
Proof.
  unfold py_max. induction rest as [|y ys IH]; intros b; simpl.
  - split; [left; reflexivity|]. intros x [<-|[]]. apply tuple_gt_false; right; lia.
  - set (b' := if tuple_gt (key y) (key b) then y else b).
    destruct (IH b') as [Hin Hle].
    assert (Hb : tuple_gt (key b) (key b') = false /\ tuple_gt (key y) (key b') = false).
    { unfold b'; destruct (tuple_gt (key y) (key b)) eqn:E.
      - apply tuple_gt_true in E. rewrite !tuple_gt_false. lia.
      - split; [apply tuple_gt_false; right; lia | exact E]. }
    split.
    + destruct Hin as [Heq|Hin]; [|right; right; exact Hin].
      rewrite <- Heq; unfold b'; destruct (tuple_gt (key y) (key b)); [right; left|left]; reflexivity.
    + intros x [<-|[<-|Hx]].
      * eapply tuple_le_trans; [apply Hb | apply Hle; left; reflexivity].
      * eapply tuple_le_trans; [apply Hb | apply Hle; left; reflexivity].
      * apply Hle; right; exact Hx.
Qed.

Lemma TRUMP_ORDER_inj a b : TRUMP_ORDER a = TRUMP_ORDER b -> a = b.
Proof. destruct a, b; simpl; congruence. Qed.

Lemma NORMAL_ORDER_inj a b : NORMAL_ORDER a = NORMAL_ORDER b -> a = b.
Proof. destruct a, b; simpl; congruence. Qed.

(** Within a trick whose led suit is [led], the code's key [(2|1|0, rank)]
    orders two cards exactly as the spec's [(is trump, is led, rank)]. *)
Lemma pile_key_matches_spec_key trump pile led a b :
  dominant_suit pile = Some led ->
  tuple_gt (pile_key_function trump pile b) (pile_key_function trump pile a) =
  spec_key_lt (spec_key trump led (snd a)) (spec_key trump led (snd b)).
Proof.
  intros Hd. unfold pile_key_function, spec_key, get_rank. rewrite Hd.
  destruct (snd a) as [ra sa], (snd b) as [rb sb]; simpl.
  destruct sa, sb, trump, led; simpl; reflexivity.
Qed.

(** Keys of rank 1 or 2 in a trick identify the card. *)
Lemma pile_key_injective trump pile x w :
  1 <= fst (pile_key_function trump pile w) ->
  pile_key_function trump pile x = pile_key_function trump pile w -> snd x = snd w.
Proof.
  unfold pile_key_function, get_rank.
  destruct (snd x) as [rx sx], (snd w) as [rw sw]; simpl.
  destruct (dominant_suit pile) as [d|].
  - destruct sx, sw, trump, d; cbn -[TRUMP_ORDER NORMAL_ORDER]; intros Hge Heq; inversion Heq; try lia;
      f_equal; first [apply TRUMP_ORDER_inj; assumption | apply NORMAL_ORDER_inj; assumption].
  - destruct sx, sw, trump; cbn -[TRUMP_ORDER NORMAL_ORDER]; intros Hge Heq; inversion Heq; try lia;
      f_equal; first [apply TRUMP_ORDER_inj; assumption | apply NORMAL_ORDER_inj; assumption].
Qed.

Lemma NoDup_map_snd_inj {A B} (l : list (A * B)) x w :
  NoDup (map snd l) -> In x l -> In w l -> snd x = snd w -> x = w.
Proof.
  induction l as [|p l IH]; simpl; [tauto|].
  intros Hnd Hx Hw Hs. inversion Hnd as [|? ? Hnotin Hnd']; subst.
  destruct Hx as [<-|Hx], Hw as [<-|Hw]; [reflexivity| | |now apply IH].
  - exfalso; apply Hnotin. rewrite Hs. now apply in_map.
  - exfalso; apply Hnotin. rewrite <- Hs. now apply in_map.
Qed.

(** C2: the winner of a completed trick of four distinct cards is one of
    its pairs, and its card's key (is trump, is led suit, rank) is strictly
    greater than the key of each of the other three cards. *)
Theorem winning_player_card_dominates (trump : Suit) (first : seat * Card) (rest : Pile)
    (Hlen : length (first :: rest) = 4) (Hnd : NoDup (map snd (first :: rest))) :
  let w := winning_player_card trump first rest in
  let led := suit (snd first) in
  In w (first :: rest) /\
  forall x, In x (first :: rest) -> x <> w ->
    spec_key_lt (spec_key trump led (snd x)) (spec_key trump led (snd w)) = true.
Proof.
  cbv zeta. unfold winning_player_card.
  set (key := pile_key_function trump (first :: rest)).
  destruct (py_max_spec key rest first) as [Hin Hle].
  set (w := py_max key first rest) in *.
  split; [exact Hin|]. intros x Hx Hne.
  assert (Hd : dominant_suit (first :: rest) = Some (suit (snd first)))
    by (destruct first; reflexivity).
  rewrite <- (pile_key_matches_spec_key trump (first :: rest) _ x w Hd).
  fold key.
  assert (Hfirst : 1 <= fst (key first)).
  { unfold key, pile_key_function; rewrite Hd, suit_eqb_refl.
    destruct (suit_eqb (suit (snd first)) trump); simpl; lia. }
  assert (Hw : 1 <= fst (key w)).
  { pose proof (Hle first (or_introl eq_refl)) as H. apply tuple_gt_false in H. lia. }
  assert (Hneq : key x <> key w).
  { intros Heq. apply Hne. apply (NoDup_map_snd_inj (first :: rest)); auto.
    exact (pile_key_injective trump (first :: rest) x w Hw Heq). }
  pose proof (Hle x Hx) as H. apply tuple_gt_false in H. apply tuple_gt_true.
  destruct (key x) as [a1 a2], (key w) as [b1 b2]; simpl in *.
  destruct H as [H|[H1 H2]]; [left; exact H|].
  right; split; [symmetry; exact H1|]. subst.
  destruct (Nat.eq_dec a2 b2); [subst; contradiction|lia].
Qed.

Lemma winning_player_card_dominates_witness :
  let first := (0, cQH) in
  let rest := [(1, c7H); (2, cKH); (3, c9C)] in
  length (first :: rest) = 4 /\ NoDup (map snd (first :: rest)) /\
  winning_player_card HEARTS first rest = (2, cKH) /\
  In (winning_player_card HEARTS first rest) (first :: rest).
Proof.
  cbv zeta.
  assert (Hnd : NoDup (map snd [(0, cQH); (1, c7H); (2, cKH); (3, c9C)])).
  { simpl. repeat constructor; simpl; intuition discriminate. }
  pose proof (winning_player_card_dominates HEARTS (0, cQH) [(1, c7H); (2, cKH); (3, c9C)]
                eq_refl Hnd) as [Hin _].
  split; [reflexivity|]. split; [exact Hnd|]. split; [reflexivity|exact Hin].
Defined.

(** *** The monad and the deck *)

Definition with_cards (g : Game) (d : list Card) : Game :=
  mkGame d (hand_of g) (queue_of g) (sent g) (team_state g) (game_trump g) (trick_pile g).

Lemma bind_ret_step {A B} (m : M A) (k : A -> M B) g a g' :
  m g = (Ret a, g') -> bind m k g = k a g'.
Proof. intros H; unfold bind; rewrite H; reflexivity. Qed.

Lemma bind_raise_step {A B} (m : M A) (k : A -> M B) g e g' :
  m g = (Raise e, g') -> bind m k g = (Raise e, g').
Proof. intros H; unfold bind; rewrite H; reflexivity. Qed.

Lemma with_cards_same g : with_cards g (cards g) = g.
Proof. destruct g; reflexivity. Qed.

Lemma deck_pop_nonempty g c r :
  cards g = c :: r -> deck_pop g = (Ret (last (c :: r) c), with_cards g (removelast (c :: r))).
Proof. intros H. unfold deck_pop, bind, get. rewrite H. reflexivity. Qed.

Lemma deck_pop_snoc g pre x :
  cards g = pre ++ [x] -> deck_pop g = (Ret x, with_cards g pre).
Proof.
  intros H. destruct (pre ++ [x]) as [|c r] eqn:E; [destruct pre; discriminate|].
  rewrite (deck_pop_nonempty g c r H), <- E, removelast_last, last_last. reflexivity.
Qed.

Lemma pop_n_top n : forall g pre top,
  cards g = pre ++ top -> length top = n ->
  pop_n n g = (Ret (rev top), with_cards g pre).
Proof.
  induction n as [|k IH]; intros g pre top Hc Hl.
  - destruct top; [|discriminate]. rewrite app_nil_r in Hc.
    simpl. rewrite <- Hc, with_cards_same; reflexivity.
  - destruct top as [|y ys] using rev_ind; [discriminate|].
    rewrite length_app in Hl; simpl in Hl.
    simpl. unfold bind at 1.
    rewrite (deck_pop_snoc g (pre ++ ys) y) by (rewrite Hc, app_assoc; reflexivity).
    unfold bind. rewrite (IH _ pre ys) by (simpl; reflexivity || lia).
    rewrite rev_app_distr. reflexivity.
Qed.

Lemma pop_n_short n : forall g,
  length (cards g) < n -> exists g', pop_n n g = (Raise IndexError, g').
Proof.
  induction n as [|k IH]; intros g Hl; [lia|].
  destruct (cards g) as [|c r] eqn:E.
  - exists g. simpl. unfold bind at 1. unfold deck_pop, bind, get. rewrite E. reflexivity.
  - destruct (exists_last (l := c :: r) ltac:(discriminate)) as [pre [x Hx]].
    rewrite Hx in E, Hl. simpl. unfold bind at 1. rewrite (deck_pop_snoc g pre x E).
    destruct (IH (with_cards g pre)) as [g' Hg'].
    { simpl. rewrite length_app in Hl. simpl in Hl. lia. }
    exists g'. unfold bind; rewrite Hg'. reflexivity.
Qed.

Lemma pop_many_top n g pre top :
  cards g = pre ++ top -> length top = n ->
  pop_many n g = (Ret (rev top), with_cards g pre).
Proof.
  intros Hc Hl. unfold pop_many, bind. rewrite (pop_n_top n g pre top Hc Hl).
  rewrite length_rev, Hl, Nat.eqb_refl. reflexivity.
Qed.

Lemma pop_many_short n g :
  length (cards g) < n -> exists g', pop_many n g = (Raise IndexError, g').
Proof.
  intros Hl. destruct (pop_n_short n g Hl) as [g' Hg'].
  exists g'. unfold pop_many, bind. rewrite Hg'. reflexivity.
Qed.

(** The state after dealing the top [n] cards to [p]. *)
Definition deal_into (g : Game) (p : seat) (n : nat) : Game :=
  let k := length (cards g) - n in
  mkGame (firstn k (cards g)) (upd (hand_of g) p (hand_of g p ++ rev (skipn k (cards g))))
    (queue_of g) (sent g) (team_state g) (game_trump g) (trick_pile g).

Lemma deal_step p n g :
  n <= length (cards g) ->
  (cs <- pop_many n;; add_to_hand p cs) g = (Ret tt, deal_into g p n).
Proof.
  intros Hn.
  rewrite (bind_ret_step _ _ g (rev (skipn (length (cards g) - n) (cards g)))
             (with_cards g (firstn (length (cards g) - n) (cards g)))).
  - reflexivity.
  - apply pop_many_top; [symmetry; apply firstn_skipn | rewrite length_skipn; lia].
Qed.

Definition sum_nb (nb : seat -> nat) (ps : list seat) : nat :=
  fold_right (fun p acc => nb p + acc) 0 ps.

Definition dealt_to (nb : seat -> nat) (ps : list seat) (p : seat) : nat :=
  fold_right (fun q acc => (if Nat.eqb q p then nb q else 0) + acc) 0 ps.

Lemma for_each_deal (nb : seat -> nat) ps : forall g,
  sum_nb nb ps <= length (cards g) ->
  exists g', for_each ps (fun p => cs <- pop_many (nb p);; add_to_hand p cs) g = (Ret tt, g') /\
    length (cards g') = length (cards g) - sum_nb nb ps /\
    (forall p, length (hand_of g' p) = length (hand_of g p) + dealt_to nb ps p) /\
    queue_of g' = queue_of g /\ sent g' = sent g /\ team_state g' = team_state g /\
    game_trump g' = game_trump g /\ trick_pile g' = trick_pile g.
Proof.
  induction ps as [|q qs IH]; intros g Hs.
  - exists g; simpl; repeat split; intros; lia.
  - simpl in Hs.
    destruct (IH (deal_into g q (nb q))) as [g' (Hrun & Hlen & Hh & Hq & Hsent & Ht & Htr & Hp)].
    { unfold deal_into; simpl. rewrite length_firstn. lia. }
    exists g'. simpl. unfold bind at 1. rewrite (deal_step q (nb q) g) by lia.
    split; [exact Hrun|].
    unfold deal_into in *; simpl in *.
    rewrite Hlen, length_firstn. split; [lia|].
    split; [|repeat split; assumption].
    intros p. rewrite Hh. unfold upd. destruct (Nat.eqb p q) eqn:E.
    + apply Nat.eqb_eq in E; subst. rewrite Nat.eqb_refl, length_app, length_rev, length_skipn. lia.
    + rewrite Nat.eqb_sym, E. lia.
Qed.

(** *** The turn ring *)

Lemma iter_from_next_seats d :
  d < 4 -> iter_from_next d = map (fun k => (d + k) mod 4) [1; 2; 3; 4].
Proof. intros H; do 4 (destruct d as [|d]; [reflexivity|]); lia. Qed.

Lemma iter_from_self_seats d :
  d < 4 -> iter_from_self d = map (fun k => (d + k) mod 4) [0; 1; 2; 3].
Proof. intros H; do 4 (destruct d as [|d]; [reflexivity|]); lia. Qed.

Lemma sum_nb_iter nb d :
  d < 4 -> sum_nb nb (iter_from_next d) = nb 0 + nb 1 + nb 2 + nb 3.
Proof.
  intros H; unfold sum_nb; rewrite iter_from_next_seats by exact H.
  do 4 (destruct d as [|d]; [simpl; lia|]); lia.
Qed.

Lemma dealt_to_iter nb d p :
  d < 4 -> p < 4 -> dealt_to nb (iter_from_next d) p = nb p.
Proof.
  intros Hd Hp; unfold dealt_to; rewrite iter_from_next_seats by exact Hd.
  do 4 (destruct d as [|d]; [do 4 (destruct p as [|p]; [simpl; lia|]); lia|]); lia.
Qed.

Lemma add_to_hand_run p cs g :
  add_to_hand p cs g =
  (Ret tt, mkGame (cards g) (upd (hand_of g) p (hand_of g p ++ cs)) (queue_of g) (sent g)
             (team_state g) (game_trump g) (trick_pile g)).
Proof. reflexivity. Qed.

(** The four-seat hand arithmetic of the two deals. *)
Lemma deal_5_cards_run dealer g :
  dealer < 4 -> 20 <= length (cards g) ->
  exists g1, deal_5_cards dealer g = (Ret tt, g1) /\
    length (cards g1) = length (cards g) - 20 /\
    (forall p, p < 4 -> length (hand_of g1 p) = length (hand_of g p) + 5) /\
    queue_of g1 = queue_of g /\ sent g1 = sent g /\ team_state g1 = team_state g /\
    game_trump g1 = game_trump g /\ trick_pile g1 = trick_pile g.
Proof.
  intros Hd Hl. unfold deal_5_cards.
  destruct (for_each_deal (fun _ => 2) (iter_from_next dealer) g) as [g' (R1 & L1 & H1 & Q1 & S1 & T1 & U1 & P1)].
  { rewrite sum_nb_iter by exact Hd. lia. }
  destruct (for_each_deal (fun _ => 3) (iter_from_next dealer) g') as [g'' (R2 & L2 & H2 & Q2 & S2 & T2 & U2 & P2)].
  { rewrite L1, sum_nb_iter by exact Hd. rewrite sum_nb_iter by exact Hd. lia. }
  exists g''. rewrite (bind_ret_step _ _ g tt g' R1).
  split; [exact R2|].
  rewrite L2, L1, !sum_nb_iter by exact Hd.
  split; [lia|].
  split; [|repeat split; congruence].
  intros p Hp. rewrite H2, H1, !dealt_to_iter by assumption. lia.
Qed.

Lemma deal_remaining_run dealer bidder g :
  dealer < 4 -> bidder < 4 -> 12 <= length (cards g) ->
  exists g2, deal_remaining dealer bidder g = (Ret tt, g2) /\
    length (cards g2) = length (cards g) - 12 /\
    (forall p, p < 4 -> length (hand_of g2 p) = length (hand_of g p) + 3) /\
    queue_of g2 = queue_of g /\ sent g2 = sent g /\ team_state g2 = team_state g /\
    game_trump g2 = game_trump g /\ trick_pile g2 = trick_pile g.
Proof.
  intros Hd Hb Hl. unfold deal_remaining.
  set (k := length (cards g) - 1).
  rewrite (bind_ret_step _ _ g (rev (skipn k (cards g))) (with_cards g (firstn k (cards g)))).
  2:{ apply pop_many_top; [symmetry; apply firstn_skipn | rewrite length_skipn; unfold k; lia]. }
  unfold bind at 1. rewrite add_to_hand_run.
  set (g1 := mkGame _ _ _ _ _ _ _).
  set (nb := fun player => if Nat.eqb player bidder then 2 else 3).
  assert (Hsum : sum_nb nb (iter_from_next dealer) = 11).
  { rewrite sum_nb_iter by exact Hd. unfold nb.
    do 4 (destruct bidder as [|bidder]; [reflexivity|]); lia. }
  destruct (for_each_deal nb (iter_from_next dealer) g1) as [g2 (R & L & H & Q & S & T & U & P)].
  { rewrite Hsum. unfold g1; simpl. rewrite length_firstn. unfold k. lia. }
  exists g2. split; [exact R|].
  rewrite L, Hsum. unfold g1; simpl. rewrite length_firstn. split; [unfold k; lia|].
  split; [|repeat split; assumption].
  intros p Hp. rewrite H, dealt_to_iter by assumption. unfold g1, nb, upd; simpl.
  destruct (Nat.eqb p bidder) eqn:E.
  - apply Nat.eqb_eq in E; subst p.
    rewrite length_app, length_rev, length_skipn. unfold k. lia.
  - lia.
Qed.

(** C6: the deck arithmetic of a deal.  Dealing follows the ring from
    the seat after the dealer; each [pop_many n] removes exactly [n] cards
    when the deck has them and raises [IndexError] otherwise; from 32
    cards [deal_5_cards] leaves 12 and five cards in every hand, and
    [deal_remaining] then takes those 12, leaving eight cards in every
    hand and an empty deck. *)
Theorem deal_consumes_deck (dealer bidder : seat) (Hd : dealer < 4) (Hb : bidder < 4) :
  iter_from_next dealer = map (fun k => (dealer + k) mod 4) [1; 2; 3; 4] /\
  (forall n g, n <= length (cards g) ->
     exists cs g', pop_many n g = (Ret cs, g') /\ length cs = n /\
                   length (cards g') = length (cards g) - n) /\
  (forall n g, length (cards g) < n -> exists g', pop_many n g = (Raise IndexError, g')) /\
  (forall g, length (cards g) = 32 -> (forall p, hand_of g p = []) ->
     exists g1, deal_5_cards dealer g = (Ret tt, g1) /\ length (cards g1) = 12 /\
       (forall p, p < 4 -> length (hand_of g1 p) = 5) /\
       exists g2, deal_remaining dealer bidder g1 = (Ret tt, g2) /\ cards g2 = [] /\
         (forall p, p < 4 -> length (hand_of g2 p) = 8)).
Proof.
  split; [now apply iter_from_next_seats|].
  split.
  { intros n g Hn. exists (rev (skipn (length (cards g) - n) (cards g))),
      (with_cards g (firstn (length (cards g) - n) (cards g))).
    split; [apply pop_many_top; [symmetry; apply firstn_skipn | rewrite length_skipn; lia]|].
    simpl. rewrite length_rev, length_skipn, length_firstn. split; lia. }
  split; [exact pop_many_short|].
  intros g Hl He.
  destruct (deal_5_cards_run dealer g Hd) as [g1 (R1 & L1 & H1 & _)]; [lia|].
  exists g1. split; [exact R1|]. rewrite L1, Hl. split; [reflexivity|].
  split; [intros p Hp; rewrite H1, He by exact Hp; reflexivity|].
  destruct (deal_remaining_run dealer bidder g1 Hd Hb) as [g2 (R2 & L2 & H2 & _)]; [lia|].
  exists g2. split; [exact R2|]. split.
  - apply length_zero_iff_nil. rewrite L2, L1. lia.
  - intros p Hp. rewrite H2, H1, He by exact Hp. reflexivity.
Qed.

Lemma deal_consumes_deck_witness :
  0 < 4 /\ 1 < 4 /\ iter_from_next 0 = [1; 2; 3; 0].
Proof.
  pose proof (deal_consumes_deck 0 1 ltac:(lia) ltac:(lia)) as [H _].
  split; [lia|]. split; [lia|]. exact H.
Defined.

(** *** Frame properties of the monadic code *)

Section Preserves.

Variable R : Game -> Game -> Prop.
Hypothesis R_refl : forall g, R g g.
Hypothesis R_trans : forall g1 g2 g3, R g1 g2 -> R g2 g3 -> R g1 g3.

(** Every run of [m], whatever its outcome, relates the states by [R]. *)
Definition preserves {A} (m : M A) : Prop := forall g o g', m g = (o, g') -> R g g'.

Lemma preserves_ret {A} (a : A) : preserves (ret a).
Proof using R_refl R_trans. intros g o g' H; inversion H; subst; apply R_refl. Qed.

Lemma preserves_raise {A} e : preserves (@raise A e).
Proof using R_refl R_trans. intros g o g' H; inversion H; subst; apply R_refl. Qed.

Lemma preserves_bind {A B} (m : M A) (k : A -> M B) :
  preserves m -> (forall a, preserves (k a)) -> preserves (bind m k).
Proof using R_refl R_trans.
  intros Hm Hk g o g' H. unfold bind in H.
  destruct (m g) as [[a|e|] g1] eqn:E.
  - eapply R_trans; [exact (Hm _ _ _ E) | exact (Hk a _ _ _ H)].
  - inversion H; subst; exact (Hm _ _ _ E).
  - inversion H; subst; exact (Hm _ _ _ E).
Qed.

Lemma preserves_get_bind {A} (k : Game -> M A) :
  (forall g0, preserves (k g0)) -> preserves (bind get k).
Proof using R_refl R_trans.
  intros Hk. apply preserves_bind; [|exact Hk].
  intros g o g' H; inversion H; subst; apply R_refl.
Qed.

Lemma preserves_for_each {A} (xs : list A) (body : A -> M unit) :
  (forall x, preserves (body x)) -> preserves (for_each xs body).
Proof using R_refl R_trans.
  intros Hb. induction xs as [|x xs IH]; simpl; [apply preserves_ret|].
  apply preserves_bind; [apply Hb | intros _; exact IH].
Qed.

End Preserves.

Definition same_cards (g g' : Game) : Prop := cards g' = cards g.

Definition hands_extend (g g' : Game) : Prop :=
  forall p, exists s, hand_of g' p = hand_of g p ++ s.

Lemma hands_extend_refl g : hands_extend g g.
Proof. intros p; exists []; symmetry; apply app_nil_r. Qed.

Lemma hands_extend_trans g1 g2 g3 : hands_extend g1 g2 -> hands_extend g2 g3 -> hands_extend g1 g3.
Proof.
  intros H1 H2 p. destruct (H1 p) as [s1 E1], (H2 p) as [s2 E2].
  exists (s1 ++ s2). rewrite E2, E1, app_assoc; reflexivity.
Qed.

Lemma same_cards_refl g : same_cards g g.
Proof. reflexivity. Qed.

Lemma same_cards_trans g1 g2 g3 : same_cards g1 g2 -> same_cards g2 g3 -> same_cards g1 g3.
Proof. unfold same_cards; congruence. Qed.

Ltac step_run H := intros ? ? ? H; inversion H; subst; simpl.

Lemma send_message_cards p m : preserves same_cards (send_message p m).
Proof. step_run H; reflexivity. Qed.

Lemma recv_message_cards p : preserves same_cards (recv_message p).
Proof.
  apply preserves_get_bind; [exact same_cards_refl | exact same_cards_trans|].
  intros g0. destruct (queue_of g0 p) as [|m rest].
  - step_run H; reflexivity.
  - apply preserves_bind; [exact same_cards_refl | exact same_cards_trans | |].
    + step_run H; reflexivity.
    + intros _; apply preserves_ret; [exact same_cards_refl | exact same_cards_trans].
Qed.

Lemma set_trump_cards s : preserves same_cards (set_trump s).
Proof. step_run H; reflexivity. Qed.

Lemma set_team_cards t v : preserves same_cards (set_team t v).
Proof. step_run H; reflexivity. Qed.

Lemma peek_cards : preserves same_cards peek.
Proof.
  apply preserves_get_bind; [exact same_cards_refl | exact same_cards_trans|].
  intros g0. destruct (cards g0).
  - apply preserves_raise; [exact same_cards_refl | exact same_cards_trans].
  - apply preserves_ret; [exact same_cards_refl | exact same_cards_trans].
Qed.

Lemma broadcast_cards m : preserves same_cards (broadcast m).
Proof.
  apply preserves_for_each; [exact same_cards_refl | exact same_cards_trans|].
  intros p; apply send_message_cards.
Qed.

Lemma send_hands_cards : preserves same_cards send_hands.
Proof.
  apply preserves_for_each; [exact same_cards_refl | exact same_cards_trans|].
  intros p. apply preserves_get_bind; [exact same_cards_refl | exact same_cards_trans|].
  intros g0; apply send_message_cards.
Qed.

Ltac pc := first [exact same_cards_refl | exact same_cards_trans].
Ltac ph := first [exact hands_extend_refl | exact hands_extend_trans].

Lemma take_phase_cards card ps : preserves same_cards (take_phase card ps).
Proof.
  induction ps as [|p ps IH]; simpl; [apply preserves_ret; pc|].
  apply preserves_bind; [pc | pc | apply send_message_cards | intros _].
  apply preserves_bind; [pc | pc | apply recv_message_cards | intros answer].
  destruct (pystr_eqb answer (py "yes"%string)); [|exact IH].
  apply preserves_bind; [pc | pc | apply set_trump_cards | intros _].
  apply preserves_bind; [pc | pc | apply broadcast_cards | intros _].
  apply preserves_ret; pc.
Qed.

Lemma choice_phase_cards choices ps : preserves same_cards (choice_phase choices ps).
Proof.
  induction ps as [|p ps IH]; simpl; [apply preserves_ret; pc|].
  apply preserves_bind; [pc | pc | apply send_message_cards | intros _].
  apply preserves_bind; [pc | pc | apply recv_message_cards | intros s].
  destruct (existsb (pystr_eqb s) choices); [|exact IH].
  destruct (suit_of_value s); [|apply preserves_raise; pc].
  apply preserves_bind; [pc | pc | apply set_trump_cards | intros _].
  apply preserves_bind; [pc | pc | apply broadcast_cards | intros _].
  apply preserves_ret; pc.
Qed.

Lemma finish_bidding_cards r : preserves same_cards (finish_bidding r).
Proof.
  destruct r as [b|]; simpl; [|apply preserves_ret; pc].
  apply preserves_get_bind; [pc | pc | intros g0].
  apply preserves_bind; [pc | pc | apply set_team_cards | intros _].
  apply preserves_ret; pc.
Qed.

(** No deck operation happens during the bidding. *)
Lemma bidding_phase_cards dealer : preserves same_cards (bidding_phase dealer).
Proof.
  unfold bidding_phase.
  apply preserves_bind; [pc | pc | apply peek_cards | intros card].
  apply preserves_bind; [pc | pc | apply broadcast_cards | intros _].
  apply preserves_bind; [pc | pc | apply send_hands_cards | intros _].
  apply preserves_bind; [pc | pc | apply take_phase_cards | intros taken].
  apply preserves_bind; [pc | pc | | intros resolved; apply finish_bidding_cards].
  destruct taken; [apply preserves_ret; pc | apply choice_phase_cards].
Qed.

Lemma peek_run g c g1 :
  peek g = (Ret c, g1) -> g1 = g /\ exists pre, cards g = pre ++ [c].
Proof.
  unfold peek, bind, get. destruct (cards g) as [|d r] eqn:E; intros H; [discriminate|].
  injection H as Hc Hg. split; [symmetry; exact Hg|]. exists (removelast (d :: r)).
  rewrite <- Hc. exact (app_removelast_last d (l := d :: r) ltac:(discriminate)).
Qed.

Lemma deck_pop_hands : preserves hands_extend deck_pop.
Proof.
  apply preserves_get_bind; [ph | ph | intros g0].
  destruct (cards g0) as [|c r].
  - apply preserves_raise; ph.
  - apply preserves_bind; [ph | ph | | intros _; apply preserves_ret; ph].
    step_run H; intros q; exists []; symmetry; apply app_nil_r.
Qed.

Lemma pop_many_hands n : preserves hands_extend (pop_many n).
Proof.
  unfold pop_many. apply preserves_bind; [ph | ph | | intros cs].
  - induction n as [|k IH]; simpl; [apply preserves_ret; ph|].
    apply preserves_bind; [ph | ph | apply deck_pop_hands | intros c].
    apply preserves_bind; [ph | ph | exact IH | intros cs; apply preserves_ret; ph].
  - destruct (Nat.eqb (length cs) n); [apply preserves_ret; ph | apply preserves_raise; ph].
Qed.

Lemma add_to_hand_hands p cs : preserves hands_extend (add_to_hand p cs).
Proof.
  intros g o g' H. rewrite add_to_hand_run in H. injection H as _ <-.
  intros q. simpl. unfold upd. destruct (Nat.eqb q p) eqn:E.
  - apply Nat.eqb_eq in E; subst q. exists cs; reflexivity.
  - exists []; symmetry; apply app_nil_r.
Qed.

(** C10: [peek] returns the top card and leaves the game as it is; when
    the bidding resolves, the first card [deal_remaining] hands to the
    bidder is that peeked card. *)
Theorem peeked_card_dealt_to_bidder (dealer b : seat) (g g2 g3 : Game) :
  (forall c g1, peek g = (Ret c, g1) -> g1 = g /\ exists pre, cards g = pre ++ [c]) /\
  (bidding_phase dealer g = (Ret (Some b), g2) ->
   deal_remaining dealer b g2 = (Ret tt, g3) ->
   exists c rest, peek g = (Ret c, g) /\ cards g2 = cards g /\
     hand_of g3 b = hand_of g2 b ++ c :: rest).
Proof.
  split; [apply peek_run|].
  intros Hbid Hdeal.
  assert (Hc2 : cards g2 = cards g)
    by exact (bidding_phase_cards dealer g _ g2 Hbid).
  unfold bidding_phase, bind at 1 in Hbid.
  destruct (peek g) as [[c|e|] g1] eqn:Hpeek; [| discriminate Hbid | discriminate Hbid].
  destruct (peek_run g c g1 Hpeek) as [-> [pre Hpre]].
  exists c.
  unfold deal_remaining in Hdeal.
  rewrite (bind_ret_step _ _ g2 [c] (with_cards g2 pre)) in Hdeal.
  2:{ apply (pop_many_top 1 g2 pre [c]); [congruence | reflexivity]. }
  unfold bind at 1 in Hdeal. rewrite add_to_hand_run in Hdeal.
  pose proof (preserves_for_each hands_extend hands_extend_refl hands_extend_trans _ _
                (fun player =>
                   preserves_bind hands_extend hands_extend_refl hands_extend_trans _ _
                     (pop_many_hands _) (fun cs => add_to_hand_hands player cs))
                _ _ _ Hdeal) as Hext.
  destruct (Hext b) as [s Hs]. simpl in Hs. unfold upd in Hs. rewrite Nat.eqb_refl in Hs.
  exists s. split; [reflexivity|]. split; [exact Hc2|].
  rewrite Hs, <- app_assoc. reflexivity.
Qed.

Lemma peeked_card_dealt_to_bidder_witness :
  let g2 := snd (bidding_phase 0 g_bid) in
  let g3 := snd (deal_remaining 0 1 g2) in
  bidding_phase 0 g_bid = (Ret (Some 1), g2) /\
  deal_remaining 0 1 g2 = (Ret tt, g3) /\
  exists c rest, peek g_bid = (Ret c, g_bid) /\ hand_of g3 1 = hand_of g2 1 ++ c :: rest.
Proof.
  cbv zeta.
  assert (H1 : bidding_phase 0 g_bid = (Ret (Some 1), snd (bidding_phase 0 g_bid)))
    by (vm_compute; reflexivity).
  assert (H2 : deal_remaining 0 1 (snd (bidding_phase 0 g_bid)) =
               (Ret tt, snd (deal_remaining 0 1 (snd (bidding_phase 0 g_bid)))))
    by (vm_compute; reflexivity).
  destruct (proj2 (peeked_card_dealt_to_bidder 0 1 g_bid _ _) H1 H2)
    as (c & rest & Hp & _ & Hh).
  split; [exact H1|]. split; [exact H2|]. exists c, rest. split; [exact Hp | exact Hh].
Defined.

(** *** The take phase *)

(** Only the transcript changes. *)
Definition quiet (g g' : Game) : Prop :=
  cards g' = cards g /\ hand_of g' = hand_of g /\ queue_of g' = queue_of g /\
  team_state g' = team_state g /\ game_trump g' = game_trump g /\ trick_pile g' = trick_pile g.

Lemma quiet_refl g : quiet g g.
Proof. repeat split. Qed.

Lemma quiet_trans g1 g2 g3 : quiet g1 g2 -> quiet g2 g3 -> quiet g1 g3.
Proof. unfold quiet; intuition congruence. Qed.

Lemma for_each_quiet {A} (xs : list A) (body : A -> M unit) :
  (forall x g, exists g', body x g = (Ret tt, g') /\ quiet g g') ->
  forall g, exists g', for_each xs body g = (Ret tt, g') /\ quiet g g'.
Proof.
  intros Hb. induction xs as [|x xs IH]; intros g; simpl.
  - exists g; split; [reflexivity | apply quiet_refl].
  - destruct (Hb x g) as [g1 [R1 Q1]]. destruct (IH g1) as [g2 [R2 Q2]].
    exists g2. rewrite (bind_ret_step _ _ g tt g1 R1). split; [exact R2|].
    eapply quiet_trans; eassumption.
Qed.

Lemma send_message_quiet p m g :
  exists g', send_message p m g = (Ret tt, g') /\ quiet g g'.
Proof. eexists; split; [reflexivity | repeat split]. Qed.

Lemma broadcast_quiet m g : exists g', broadcast m g = (Ret tt, g') /\ quiet g g'.
Proof. apply for_each_quiet. intros; apply send_message_quiet. Qed.

Lemma send_hands_quiet g : exists g', send_hands g = (Ret tt, g') /\ quiet g g'.
Proof. apply for_each_quiet. intros p g0. apply send_message_quiet. Qed.

Lemma find_ext_in {A} (f h : A -> bool) (l : list A) :
  (forall x, In x l -> f x = h x) -> find f l = find h l.
Proof.
  induction l as [|x l IH]; intros E; simpl; [reflexivity|].
  rewrite (E x (or_introl eq_refl)).
  destruct (h x); [reflexivity|]. apply IH. intros y Hy; apply E; right; exact Hy.
Qed.

Lemma take_phase_run card ps : forall g,
  NoDup ps -> (forall p, In p ps -> queue_of g p <> []) ->
  exists g', take_phase card ps g = (Ret (first_yes g ps), g') /\
    cards g' = cards g /\ team_state g' = team_state g /\
    (first_yes g ps <> None -> game_trump g' = suit card).
Proof.
  induction ps as [|p ps IH]; intros g Hnd Hq.
  - exists g. repeat split. intros H; contradiction.
  - inversion Hnd as [|? ? Hnotin Hnd']; subst.
    destruct (queue_of g p) as [|a rest] eqn:Eq; [exfalso; exact (Hq p (or_introl eq_refl) Eq)|].
    destruct (send_message_quiet p MsgTakeQuestion g) as [g1 [R1 (C1 & H1 & Q1 & T1 & U1 & P1)]].
    assert (Hfy : first_yes g (p :: ps) =
                  if pystr_eqb a (py "yes"%string) then Some p else first_yes g ps)
      by (unfold first_yes; simpl; rewrite Eq; reflexivity).
    rewrite Hfy. cbn [take_phase]. rewrite (bind_ret_step _ _ g tt g1 R1).
    set (g2 := mkGame (cards g1) (hand_of g1) (upd (queue_of g1) p rest) (sent g1)
                 (team_state g1) (game_trump g1) (trick_pile g1)).
    assert (R2 : recv_message p g1 = (Ret a, g2)).
    { unfold recv_message, bind, get. rewrite Q1, Eq. reflexivity. }
    rewrite (bind_ret_step _ _ g1 a g2 R2).
    destruct (pystr_eqb a (py "yes"%string)) eqn:Ey.
    + set (g3 := mkGame (cards g2) (hand_of g2) (queue_of g2) (sent g2)
                   (team_state g2) (suit card) (trick_pile g2)).
      rewrite (bind_ret_step _ _ g2 tt g3 eq_refl).
      destruct (broadcast_quiet (MsgTook (S p)) g3) as [g4 [R4 (C4 & _ & _ & T4 & U4 & _)]].
      rewrite (bind_ret_step _ _ g3 tt g4 R4).
      exists g4. split; [reflexivity|].
      rewrite C4, T4, U4. simpl. repeat split; congruence.
    + destruct (IH g2 Hnd') as [g' (R' & C' & T' & U')].
      { intros q Hin. simpl. unfold upd. destruct (Nat.eqb q p) eqn:E.
        - apply Nat.eqb_eq in E; subst; contradiction.
        - rewrite Q1. apply Hq; right; exact Hin. }
      assert (Hf : first_yes g2 ps = first_yes g ps).
      { apply find_ext_in. intros q Hin. simpl. unfold upd.
        destruct (Nat.eqb q p) eqn:E; [apply Nat.eqb_eq in E; subst; contradiction|].
        rewrite Q1. reflexivity. }
      exists g'. rewrite R', Hf. split; [reflexivity|].
      rewrite C', T'; simpl. split; [congruence|]. split; [congruence|].
      rewrite <- Hf. exact U'.
Qed.

Lemma peek_snoc g pre c : cards g = pre ++ [c] -> peek g = (Ret c, g).
Proof.
  intros H. unfold peek, bind, get. rewrite H.
  destruct (pre ++ [c]) as [|d r] eqn:E; [destruct pre; discriminate|].
  rewrite <- E, last_last. reflexivity.
Qed.

Lemma iter_from_next_NoDup d : d < 4 -> NoDup (iter_from_next d).
Proof.
  intros H. rewrite iter_from_next_seats by exact H.
  do 4 (destruct d as [|d]; [simpl; repeat constructor; simpl; intuition discriminate|]); lia.
Qed.

Lemma iter_from_next_in d p : d < 4 -> In p (iter_from_next d) -> p < 4.
Proof.
  intros H. rewrite iter_from_next_seats by exact H. intros Hin.
  apply in_map_iff in Hin as [k [<- _]]. apply Nat.mod_upper_bound; discriminate.
Qed.

Lemma suit_choices_spec c :
  (forall s, In (SUIT_VALUE s) (suit_choices c) <-> s <> suit c) /\ length (suit_choices c) = 3.
Proof.
  destruct c as [r sc]; simpl.
  split; [|destruct sc; reflexivity].
  intros s. destruct sc, s; simpl; split; intros H;
    try (intuition discriminate); try congruence; tauto.
Qed.

(** C5: the take phase.  The seats are polled from the one after the
    dealer round to the dealer; the first whose answer is exactly ["yes"]
    becomes the bidder, the trump becomes the suit of the peeked top card
    and the bidder's team gets the contract; if nobody answers ["yes"] the
    bidding goes on with the suit choice among the three other suits. *)
Theorem bidding_take_phase (dealer : seat) (g : Game) (pre : list Card) (c : Card)
    (Hd : dealer < 4) (Hdeck : cards g = pre ++ [c])
    (Hq : forall p, p < 4 -> queue_of g p <> []) :
  iter_from_next dealer = map (fun k => (dealer + k) mod 4) [1; 2; 3; 4] /\
  (forall b, first_yes g (iter_from_next dealer) = Some b ->
     exists g', bidding_phase dealer g = (Ret (Some b), g') /\
       game_trump g' = suit c /\ has_contract (team_state g' (team_of b)) = true) /\
  (first_yes g (iter_from_next dealer) = None ->
     exists g1, cards g1 = cards g /\
       bidding_phase dealer g = bind (suit_choice_phase dealer c) finish_bidding g1) /\
  (forall s, In (SUIT_VALUE s) (suit_choices c) <-> s <> suit c) /\
  length (suit_choices c) = 3.
Proof.
  split; [now apply iter_from_next_seats|].
  destruct (broadcast_quiet (MsgTheCard c) g) as [ga [Ra Qa]].
  destruct (send_hands_quiet ga) as [gb [Rb Qb]].
  pose proof (quiet_trans _ _ _ Qa Qb) as Qab.
  destruct Qab as (Cb & Hb & QQb & Tb & Ub & Pb).
  destruct (take_phase_run c (iter_from_next dealer) gb (iter_from_next_NoDup dealer Hd))
    as [gc (Rc & Cc & Tc & Uc)].
  { intros p Hin. rewrite QQb. apply Hq. exact (iter_from_next_in dealer p Hd Hin). }
  assert (Hfy : first_yes gb (iter_from_next dealer) = first_yes g (iter_from_next dealer))
    by (unfold first_yes; rewrite QQb; reflexivity).
  rewrite Hfy in Rc, Uc.
  assert (Hrun : bidding_phase dealer g =
                 bind (match first_yes g (iter_from_next dealer) with
                       | Some bidder => ret (Some bidder)
                       | None => suit_choice_phase dealer c
                       end) finish_bidding gc).
  { unfold bidding_phase.
    rewrite (bind_ret_step _ _ g c g (peek_snoc g pre c Hdeck)).
    rewrite (bind_ret_step _ _ g tt ga Ra).
    rewrite (bind_ret_step _ _ ga tt gb Rb).
    rewrite (bind_ret_step _ _ gb _ gc Rc).
    reflexivity. }
  split; [|split; [|apply suit_choices_spec]].
  - intros b Hb'. rewrite Hb' in Hrun, Uc.
    rewrite Hrun. cbn.
    eexists. split; [reflexivity|].
    simpl. split.
    + apply Uc. discriminate.
    + unfold upd_team. destruct (team_of b); reflexivity.
  - intros Hn. rewrite Hn in Hrun. exists gc. split; [congruence | exact Hrun].
Qed.

Lemma bidding_take_phase_witness :
  let c := last (firstn 12 full_deck) c7H in
  0 < 4 /\ cards g_bid = removelast (firstn 12 full_deck) ++ [c] /\
  first_yes g_bid (iter_from_next 0) = Some 1 /\
  exists g', bidding_phase 0 g_bid = (Ret (Some 1), g') /\ game_trump g' = suit c /\
             has_contract (team_state g' Team1) = true.
Proof.
  cbv zeta.
  assert (Hdeck : cards g_bid = removelast (firstn 12 full_deck) ++ [last (firstn 12 full_deck) c7H])
    by reflexivity.
  assert (Hq : forall p, p < 4 -> queue_of g_bid p <> []).
  { intros p _. simpl. destruct (Nat.eqb p 1); discriminate. }
  assert (Hy : first_yes g_bid (iter_from_next 0) = Some 1) by reflexivity.
  destruct (bidding_take_phase 0 g_bid _ _ ltac:(lia) Hdeck Hq) as (_ & Hsome & _).
  split; [lia|]. split; [exact Hdeck|]. split; [exact Hy|].
  exact (Hsome 1 Hy).
Defined.

(** Spec scenario: dealer seat 1 (index 0), top card Q♠, seat 2 (index 1)
    answers "yes": trump ♠, bidder seat 2, contract for team {2, 4}. *)
Example bidding_scenario_queen_of_spades :
  let g := mkGame [c7H; cQS] (fun _ => [])
             (fun p => if Nat.eqb p 1 then [py "yes"%string] else [py "no"%string])
             [] (fun _ => mkTeam 0 false) HEARTS [] in
  let '(o, g') := bidding_phase 0 g in
  o = Ret (Some 1) /\ game_trump g' = SPADES /\ team_of 1 = Team1 /\
  has_contract (team_state g' Team1) = true /\ has_contract (team_state g' Team0) = false.
Proof. vm_compute. repeat split. Qed.

(** C4 (as the code behaves): when the answer to the card prompt is
    rejected, either because [Card.from_string] fails on it or because the
    card is not among the legal moves, [ask_to_play] raises ([ValueError]
    or [AssertionError]) before [plays] runs: the trick pile, the hands,
    the deck and the scores are unchanged, exactly one prompt listing the
    legal moves was sent and exactly one answer consumed.  The exception is
    not handled: whatever follows the call is skipped, so the player is not
    prompted again. *)
Theorem ask_to_play_rejected (self : seat) (g : Game) (s : pystr) (rest : list pystr)
    (Hq : queue_of g self = s :: rest)
    (Hbad : match from_string s with
            | None => True
            | Some card =>
                existsb (card_eqb card)
                  (legal_moves self (team_state g (team_of self)) (hand_of g self)
                     (game_trump g) (trick_pile g)) = false
            end) :
  exists e g', ask_to_play self g = (Raise e, g') /\
    (e = ValueError \/ e = AssertionError) /\
    trick_pile g' = trick_pile g /\ hand_of g' = hand_of g /\
    cards g' = cards g /\ team_state g' = team_state g /\
    sent g' = sent g ++ [(self, MsgWhatPlaying
                  (legal_moves self (team_state g (team_of self)) (hand_of g self)
                     (game_trump g) (trick_pile g)))] /\
    queue_of g' self = rest /\
    (forall B (k : unit -> M B), bind (ask_to_play self) k g = (Raise e, g')).
Proof.
  assert (Hrun : exists e g', ask_to_play self g = (Raise e, g') /\
    (e = ValueError \/ e = AssertionError) /\
    trick_pile g' = trick_pile g /\ hand_of g' = hand_of g /\
    cards g' = cards g /\ team_state g' = team_state g /\
    sent g' = sent g ++ [(self, MsgWhatPlaying
                  (legal_moves self (team_state g (team_of self)) (hand_of g self)
                     (game_trump g) (trick_pile g)))] /\
    queue_of g' self = rest).
  { unfold ask_to_play, recv_message, send_message, set_queue, bind, get, ret, raise.
    cbn. rewrite Hq.
    destruct (from_string s) as [card|].
    - rewrite Hbad. eexists _, _. split; [reflexivity|].
      cbn. unfold upd. rewrite Nat.eqb_refl. repeat split; auto.
    - eexists _, _. split; [reflexivity|].
      cbn. unfold upd. rewrite Nat.eqb_refl. repeat split; auto. }
  destruct Hrun as (e & g' & R & Rest).
  destruct Rest as (He & Hp & Hh & Hc & Ht & Hs & Hq').
  exists e, g'. repeat split; try assumption.
  intros B k. exact (bind_raise_step _ k g e g' R).
Qed.

Lemma ask_to_play_rejected_witness :
  queue_of g_play 0 = [py "X9"%string; py "7"%string ++ SUIT_VALUE HEARTS] /\
  exists e g', ask_to_play 0 g_play = (Raise e, g') /\ (e = ValueError \/ e = AssertionError) /\
    trick_pile g' = [] /\ hand_of g' 0 = [c7H; c9C] /\
    queue_of g' 0 = [py "7"%string ++ SUIT_VALUE HEARTS].
Proof.
  assert (Hq : queue_of g_play 0 = py "X9"%string :: [py "7"%string ++ SUIT_VALUE HEARTS])
    by reflexivity.
  destruct (ask_to_play_rejected 0 g_play _ _ Hq I)
    as (e & g' & R & He & Hp & Hh & _ & _ & _ & Hq' & _).
  split; [exact Hq|].
  exists e, g'. split; [exact R|]. split; [exact He|].
  split; [rewrite Hp; reflexivity|]. split; [rewrite Hh; reflexivity|]. exact Hq'.
Defined.

(** C4 as stated fails: on the malformed token ["X9"] the trick raises
    [ValueError]; seat 0 was prompted once only, and its next answer, the
    legal card 7♥, is never read. *)
Lemma ask_to_play_no_reprompt :
  from_string (py "7"%string ++ SUIT_VALUE HEARTS) = Some c7H /\
  from_string (py "X9"%string) = None /\
  let '(o, g') := play_trick 0 g_play in
  o = Raise ValueError /\
  sent g' = [(0, MsgWhatPlaying [c7H; c9C])] /\
  queue_of g' 0 = [py "7"%string ++ SUIT_VALUE HEARTS] /\
  trick_pile g' = [] /\ hand_of g' 0 = [c7H; c9C].
Proof. vm_compute. repeat split. Qed.

(** ** Points of a deal *)

Definition card_points (t : Suit) (l : list Card) : nat :=
  fold_right (fun c acc => get_value c t + acc) 0 l.

Definition sum4 (f : seat -> nat) : nat := f 0 + f 1 + f 2 + f 3.

Definition hands_points (t : Suit) (g : Game) : nat :=
  sum4 (fun p => card_points t (hand_of g p)).

Definition hands_count (g : Game) : nat := sum4 (fun p => length (hand_of g p)).

Definition scores (g : Game) : nat := score (team_state g Team0) + score (team_state g Team1).

Definition scores_grow (g g' : Game) : Prop :=
  forall u, score (team_state g u) <= score (team_state g' u).

Lemma card_points_app t l1 l2 : card_points t (l1 ++ l2) = card_points t l1 + card_points t l2.
Proof. induction l1 as [|c l1 IH]; simpl; [reflexivity | rewrite IH; lia]. Qed.

Lemma card_points_perm t l1 l2 : Permutation l1 l2 -> card_points t l1 = card_points t l2.
Proof. induction 1; simpl; lia. Qed.

Lemma card_points_full_deck t : card_points t full_deck = 152.
Proof. destruct t; reflexivity. Qed.

Lemma total_score_app t p1 p2 : total_score t (p1 ++ p2) = total_score t p1 + total_score t p2.
Proof. induction p1 as [|x p1 IH]; simpl; [reflexivity | rewrite IH; lia]. Qed.

Lemma py_remove_spec t c l l' :
  py_remove c l = Some l' -> card_points t l = get_value c t + card_points t l' /\ length l = S (length l').
Proof.
  revert l'. induction l as [|x l IH]; intros l' H; simpl in H; [discriminate|].
  destruct (card_eqb x c) eqn:E.
  - apply card_eqb_spec in E. subst. injection H as <-. simpl. split; reflexivity.
  - destruct (py_remove c l) as [r|] eqn:R; [|discriminate].
    injection H as <-. destruct (IH r eq_refl) as [H1 H2]. simpl. split; lia.
Qed.

Lemma sum4_upd {A} (F : A -> nat) (h : seat -> A) self v :
  self < 4 -> sum4 (fun p => F (upd h self v p)) + F (h self) = sum4 (fun p => F (h p)) + F v.
Proof.
  intros H. unfold sum4, upd.
  do 4 (destruct self as [|self]; [simpl; lia|]). lia.
Qed.

Lemma recv_message_frame p g o g' :
  recv_message p g = (o, g') ->
  hand_of g' = hand_of g /\ team_state g' = team_state g /\
  game_trump g' = game_trump g /\ trick_pile g' = trick_pile g.
Proof.
  unfold recv_message, bind, get. simpl.
  destruct (queue_of g p); intros H; inversion H; subst; repeat split.
Qed.

Lemma plays_run self card g g' :
  plays self card g = (Ret tt, g') ->
  exists h, py_remove card (hand_of g self) = Some h /\
    hand_of g' = upd (hand_of g) self h /\
    trick_pile g' = trick_pile g ++ [(self, card)] /\
    team_state g' = team_state g /\ game_trump g' = game_trump g.
Proof.
  unfold plays. erewrite bind_ret_step by reflexivity.
  erewrite bind_ret_step by reflexivity. cbn [hand_of trick_pile].
  destruct (py_remove card (hand_of g self)) as [h|] eqn:E; [|discriminate].
  erewrite bind_ret_step by reflexivity.
  match goal with
  | |- for_each ?ps ?body ?g0 = _ -> _ =>
      destruct (for_each_quiet ps body (fun x g1 => send_message_quiet _ _ g1) g0)
        as (g3 & R & Cq & Hq & Qq & Tq & Uq & Pq)
  end.
  rewrite R. intros H. injection H as <-.
  exists h. rewrite Hq, Pq, Tq, Uq. repeat split.
Qed.

Lemma ask_to_play_run self g g' :
  ask_to_play self g = (Ret tt, g') ->
  exists card h, py_remove card (hand_of g self) = Some h /\
    hand_of g' = upd (hand_of g) self h /\
    trick_pile g' = trick_pile g ++ [(self, card)] /\
    team_state g' = team_state g /\ game_trump g' = game_trump g.
Proof.
  unfold ask_to_play. erewrite bind_ret_step by reflexivity.
  erewrite bind_ret_step by reflexivity.
  match goal with
  | |- bind (recv_message self) ?k ?g1 = _ -> _ =>
      destruct (recv_message self g1) as [[s|e|] g2] eqn:R;
      [rewrite (bind_ret_step _ k g1 s g2 R)
      | unfold bind; rewrite R; discriminate
      | unfold bind; rewrite R; discriminate]
  end.
  destruct (recv_message_frame _ _ _ _ R) as (Hh & Ht & Hu & Hp).
  cbn [hand_of team_state game_trump trick_pile] in Hh, Ht, Hu, Hp.
  destruct (from_string s) as [card|]; [|discriminate].
  destruct (existsb _ _); [|discriminate].
  intros H. destruct (plays_run _ _ _ _ H) as (h & E & H1 & H2 & H3 & H4).
  exists card, h. rewrite <- Hh, <- Hp, <- Ht, <- Hu. repeat split; assumption.
Qed.

Lemma for_each_ask_to_play (ps : list seat) : forall g g',
  for_each ps ask_to_play g = (Ret tt, g') ->
  (forall p, In p ps -> p < 4) ->
  team_state g' = team_state g /\ game_trump g' = game_trump g /\
  hands_points (game_trump g) g' + total_score (game_trump g) (trick_pile g') =
    hands_points (game_trump g) g + total_score (game_trump g) (trick_pile g) /\
  hands_count g' + length ps = hands_count g /\
  exists l, trick_pile g' = trick_pile g ++ l /\ map fst l = ps.
Proof.
  induction ps as [|p ps IH]; intros g g' H Hin; simpl in H.
  - injection H as <-. do 3 (split; [reflexivity|]). split; [simpl; lia|].
    exists []. rewrite app_nil_r. split; reflexivity.
  - destruct (ask_to_play p g) as [[[]|e|] g1] eqn:E;
      [rewrite (bind_ret_step _ _ g tt g1 E) in H
      | rewrite (bind_raise_step _ _ g e g1 E) in H; discriminate
      | unfold bind in H; rewrite E in H; discriminate].
    destruct (ask_to_play_run _ _ _ E) as (card & h & Er & H1 & H2 & H3 & H4).
    destruct (IH g1 g' H (fun q Hq => Hin q (or_intror Hq))) as (T & U & P & C & l & L & F).
    assert (Hp : p < 4) by (apply Hin; left; reflexivity).
    destruct (py_remove_spec (game_trump g) _ _ _ Er) as [Pts Len].
    pose proof (sum4_upd (card_points (game_trump g)) (hand_of g) p h Hp) as Sp.
    pose proof (sum4_upd (@length Card) (hand_of g) p h Hp) as Sl.
    unfold hands_points, hands_count in *. rewrite H4 in P. rewrite H1 in P, C.
    rewrite H2 in L, P. rewrite L in P |- *. rewrite !total_score_app in *.
    simpl in P |- *. split; [congruence|]. split; [congruence|].
    split; [|split].
    + lia.
    + lia.
    + exists ((p, card) :: l). rewrite <- app_assoc. split; [reflexivity | simpl; congruence].
Qed.

Lemma add_score_run u n g g' :
  add_score u n g = (Ret tt, g') ->
  hand_of g' = hand_of g /\ game_trump g' = game_trump g /\
  scores g' = scores g + n /\ scores_grow g g'.
Proof.
  unfold add_score, bind, get, set_team. simpl. intros H. injection H as <-.
  unfold scores, scores_grow. simpl. unfold upd_team.
  repeat split; [destruct u; simpl; lia|].
  intros v. destruct u, v; simpl; lia.
Qed.

Lemma next_of_lt d : d < 4 -> next_of d < 4.
Proof. intros H. do 4 (destruct d as [|d]; [cbv; lia|]). lia. Qed.

Lemma iter_from_self_lt w p : w < 4 -> In p (iter_from_self w) -> p < 4.
Proof.
  intros H. rewrite iter_from_self_seats by exact H. intros Hin.
  apply in_map_iff in Hin as [k [<- _]]. apply Nat.mod_upper_bound; discriminate.
Qed.

Lemma play_trick_run w g w' g' :
  w < 4 -> play_trick w g = (Ret w', g') ->
  w' < 4 /\ game_trump g' = game_trump g /\
  scores g' + hands_points (game_trump g) g' = scores g + hands_points (game_trump g) g /\
  hands_count g' + 4 = hands_count g /\ scores_grow g g'.
Proof.
  intros Hw. unfold play_trick. erewrite bind_ret_step by reflexivity.
  match goal with
  | |- bind (for_each ?ps ask_to_play) ?k ?g1 = _ -> _ =>
      destruct (for_each ps ask_to_play g1) as [[[]|e|] g2] eqn:R;
      [rewrite (bind_ret_step _ k g1 tt g2 R)
      | unfold bind; rewrite R; discriminate
      | unfold bind; rewrite R; discriminate]
  end.
  destruct (for_each_ask_to_play _ _ _ R (fun p => iter_from_self_lt w p Hw))
    as (T & U & P & C & l & L & F).
  cbn [trick_pile game_trump team_state] in T, U, P, C, L.
  rewrite iter_from_self_seats in C by exact Hw.
  erewrite bind_ret_step by reflexivity.
  simpl in L. rewrite L.
  destruct l as [|first rest]; [rewrite iter_from_self_seats in F by exact Hw; discriminate|].
  set (wc := winning_player_card (game_trump g2) first rest).
  match goal with
  | |- bind (add_score ?u ?n) ?k ?g3 = _ -> _ =>
      destruct (add_score u n g3) as [o g4] eqn:A;
      destruct o as [[]|e|]; [| unfold bind; rewrite A; discriminate
                             | unfold bind; rewrite A; discriminate];
      rewrite (bind_ret_step _ k g3 tt g4 A)
  end.
  intros H. injection H as <- <-.
  destruct (add_score_run _ _ _ _ A) as (Hh & Hu & Hs & Hg).
  assert (Hin : In (fst wc) (map fst (first :: rest))).
  { apply in_map. apply (py_max_spec _ rest first). }
  split; [|split; [|split; [|split]]].
  - rewrite F in Hin. exact (iter_from_self_lt w _ Hw Hin).
  - rewrite Hu. exact U.
  - unfold hands_points in *. rewrite Hs, Hh, U. unfold scores in *. rewrite T.
    rewrite L in P. cbn [hand_of] in P. change (total_score (game_trump g) []) with 0 in P. lia.
  - unfold hands_count in *. rewrite Hh. simpl in C. lia.
  - intros v. specialize (Hg v). simpl in Hg. rewrite T in Hg. exact Hg.
Qed.

Lemma play_tricks_run n : forall w g w' g',
  w < 4 -> play_tricks n w g = (Ret w', g') ->
  w' < 4 /\ game_trump g' = game_trump g /\
  scores g' + hands_points (game_trump g) g' = scores g + hands_points (game_trump g) g /\
  hands_count g' + 4 * n = hands_count g /\ scores_grow g g'.
Proof.
  induction n as [|n IH]; intros w g w' g' Hw H; simpl in H.
  - injection H as <- <-. repeat split; try lia. intros v; lia.
  - destruct (play_trick w g) as [[w1|e|] g1] eqn:E;
      [rewrite (bind_ret_step _ _ g w1 g1 E) in H
      | rewrite (bind_raise_step _ _ g e g1 E) in H; discriminate
      | unfold bind in H; rewrite E in H; discriminate].
    destruct (play_trick_run _ _ _ _ Hw E) as (W1 & U1 & P1 & C1 & G1).
    destruct (IH _ _ _ _ W1 H) as (W2 & U2 & P2 & C2 & G2).
    rewrite U1 in P2. split; [exact W2|]. split; [congruence|].
    split; [lia|]. split; [lia|].
    intros v. specialize (G1 v). specialize (G2 v). lia.
Qed.

(** C8: for every trump the 32 cards are worth 152 points (62 in the
    trump suit, 30 in each other suit); when the four hands hold the 32
    cards and the eight tricks of [play_deal] run to completion, the two
    teams' scores have grown by 162 together (152 card points and the
    10-point bonus of the last trick), neither score having decreased. *)
Theorem deal_points_162 (dealer : seat) (g g' : Game) (Hd : dealer < 4)
    (Hhands : Permutation (hand_of g 0 ++ hand_of g 1 ++ hand_of g 2 ++ hand_of g 3) full_deck)
    (Hrun : play_deal dealer g = (Ret tt, g')) :
  (forall t, card_points t full_deck = 152 /\
     card_points t (filter (fun c => suit_eqb (suit c) t) full_deck) = 62 /\
     forall s, s <> t -> card_points t (filter (fun c => suit_eqb (suit c) s) full_deck) = 30) /\
  scores g' = scores g + 162 /\
  score (team_state g' Team0) + score (team_state g' Team1) =
    score (team_state g Team0) + score (team_state g Team1) + 162 /\
  scores_grow g g'.
Proof.
  split.
  { intros t. split; [apply card_points_full_deck|].
    split; [destruct t; reflexivity|].
    intros s Hs. destruct t, s; try congruence; reflexivity. }
  unfold play_deal in Hrun.
  destruct (play_tricks 8 (next_of dealer) g) as [[w|e|] g1] eqn:E;
    [rewrite (bind_ret_step _ _ g w g1 E) in Hrun
    | rewrite (bind_raise_step _ _ g e g1 E) in Hrun; discriminate
    | unfold bind in Hrun; rewrite E in Hrun; discriminate].
  destruct (play_tricks_run _ _ _ _ _ (next_of_lt dealer Hd) E) as (W & U & P & C & G).
  destruct (add_score_run _ _ _ _ Hrun) as (Hh & Hu & Hs & Hg).
  pose proof (Permutation_length Hhands) as Len.
  rewrite !length_app in Len. change (length full_deck) with 32 in Len.
  assert (Hpts : hands_points (game_trump g) g = 152).
  { rewrite <- (card_points_full_deck (game_trump g)), <- (card_points_perm _ _ _ Hhands).
    unfold hands_points, sum4. rewrite !card_points_app. lia. }
  assert (Hempty : forall p, p < 4 -> hand_of g1 p = []).
  { intros p Hp. unfold hands_count, sum4 in C.
    apply length_zero_iff_nil.
    do 4 (destruct p as [|p]; [lia|]). lia. }
  assert (Hz : hands_points (game_trump g) g1 = 0).
  { unfold hands_points, sum4. rewrite !Hempty by lia. reflexivity. }
  assert (Hsc : scores g' = scores g + 162) by lia.
  split; [exact Hsc|]. split; [exact Hsc|].
  intros v. specialize (G v). specialize (Hg v). lia.
Qed.

Lemma deal_points_162_witness :
  Permutation (hand_of g_deal 0 ++ hand_of g_deal 1 ++ hand_of g_deal 2 ++ hand_of g_deal 3) full_deck /\
  fst (play_deal 0 g_deal) = Ret tt /\
  scores (snd (play_deal 0 g_deal)) = scores g_deal + 162.
Proof.
  assert (Hperm : Permutation (hand_of g_deal 0 ++ hand_of g_deal 1 ++ hand_of g_deal 2 ++ hand_of g_deal 3)
                    full_deck) by (vm_compute; apply Permutation_refl).
  assert (Hrun : play_deal 0 g_deal = (Ret tt, snd (play_deal 0 g_deal)))
    by (vm_compute; reflexivity).
  destruct (deal_points_162 0 g_deal (snd (play_deal 0 g_deal)) ltac:(lia) Hperm Hrun)
    as (_ & Hs & _).
  split; [exact Hperm|]. split; [rewrite Hrun; reflexivity|]. exact Hs.
Defined.

(** * Further properties of the code *)

(** ** Parsing cards *)

Lemma pystr_eqb_true a : forall b, pystr_eqb a b = true -> a = b.
Proof.
  induction a as [|x a IH]; intros [|y b] H; simpl in H; try discriminate; [reflexivity|].
  apply andb_prop in H as [Hx Hb]. apply N.eqb_eq in Hx. subst. f_equal. exact (IH b Hb).
Qed.

Lemma rank_of_value_some v r : rank_of_value v = Some r -> RANK_VALUE r = v.
Proof. unfold rank_of_value. intros H. apply find_some in H as [_ H]. now apply pystr_eqb_true. Qed.

Lemma suit_of_value_some v s : suit_of_value v = Some s -> SUIT_VALUE s = v.
Proof. unfold suit_of_value. intros H. apply find_some in H as [_ H]. now apply pystr_eqb_true. Qed.

(** [Card.from_string] accepts exactly the tokens [rank value ++ suit
    value]: it parses the token of every card back to that card, and every
    other string (too short, unknown rank, unknown suit) is rejected. *)
Theorem from_string_card_token (s : pystr) (c : Card) :
  from_string s = Some c <-> s = card_token c.
Proof.
  split.
  - unfold from_string. destruct (Nat.ltb (length s) 2); [discriminate|].
    destruct (rank_of_value (firstn (length s - 1) s)) as [r|] eqn:Er; [|discriminate].
    destruct (suit_of_value (skipn (length s - 1) s)) as [su|] eqn:Es; [|discriminate].
    intros H. injection H as <-. unfold card_token. simpl.
    rewrite (rank_of_value_some _ _ Er), (suit_of_value_some _ _ Es).
    symmetry. apply firstn_skipn.
  - intros ->. destruct c as [r su]. destruct r, su; reflexivity.
Qed.

(** ** The deck of [Deck.__init__] *)

Fixpoint card_nodupb (l : list Card) : bool :=
  match l with
  | [] => true
  | x :: r => negb (existsb (card_eqb x) r) && card_nodupb r
  end.

Lemma card_nodupb_NoDup l : card_nodupb l = true -> NoDup l.
Proof.
  induction l as [|x r IH]; simpl; intros H; [constructor|].
  apply andb_prop in H as [Hx Hr]. constructor; [|exact (IH Hr)].
  intros Hin. apply negb_true_iff in Hx.
  assert (existsb (card_eqb x) r = true) as Hc
    by (apply existsb_exists; exists x; split; [exact Hin | now apply card_eqb_spec]).
  congruence.
Qed.

(** [Deck.__init__] lists each of the 32 cards exactly once, so its
    [assert len(self.cards) == 32] never fails (and shuffling keeps it). *)
Theorem full_deck_each_card_once :
  NoDup full_deck /\ length full_deck = 32 /\ (forall c, In c full_deck).
Proof.
  split; [apply card_nodupb_NoDup; reflexivity|].
  split; [reflexivity|].
  intros c. assert (H : existsb (card_eqb c) full_deck = true)
    by (destruct c as [r s]; destruct r, s; reflexivity).
  apply existsb_exists in H as [x [Hx Hc]]. apply card_eqb_spec in Hc. subst. exact Hx.
Qed.

(** ** The turn ring *)

(** [initialize_double_linked_list] on the four players links each seat
    to the next one round the table and back (the links the test checks). *)
Theorem ring_links (p : seat) (Hp : p < 4) :
  next_of p = (p + 1) mod 4 /\ previous_of p = (p + 3) mod 4 /\
  previous_of (next_of p) = p /\ next_of (previous_of p) = p.
Proof. do 4 (destruct p as [|p]; [vm_compute; repeat split|]). lia. Qed.

Lemma ring_links_witness :
  2 < 4 /\ next_of 2 = 3 /\ previous_of 2 = 1.
Proof.
  destruct (ring_links 2 ltac:(lia)) as (Hn & Hp & _).
  split; [lia|]. split; [exact Hn | exact Hp].
Defined.

(** [iter_from_next] visits the four seats once each, from the next seat
    round to the seat itself; [iter_from_self] starts with the seat itself
    and goes on with the next three. *)
Theorem iter_from_order (d : seat) (Hd : d < 4) :
  Permutation (iter_from_next d) players /\
  hd 0 (iter_from_next d) = next_of d /\ last (iter_from_next d) 0 = d /\
  iter_from_self d = d :: firstn 3 (iter_from_next d) /\
  Permutation (iter_from_self d) players.
Proof.
  assert (Hperm : forall l, NoDup l -> (forall x, In x l <-> In x players) -> Permutation l players).
  { intros l Hl Hx. apply NoDup_Permutation; [exact Hl | repeat constructor; simpl; lia | exact Hx]. }
  do 4 (destruct d as [|d];
        [vm_compute; repeat split; apply Hperm;
         solve [repeat constructor; simpl; lia | intros x; simpl; tauto]|]).
  lia.
Qed.

Lemma iter_from_order_witness :
  1 < 4 /\ iter_from_next 1 = [2; 3; 0; 1] /\ iter_from_self 1 = [1; 2; 3; 0].
Proof.
  destruct (iter_from_order 1 ltac:(lia)) as (_ & _ & _ & Hs & _).
  split; [lia|]. split; [reflexivity | exact Hs].
Defined.

(** ** Legal moves when trump is led *)

(** When a trump was led, the current winning card is a trump.  A player
    without trumps may play anything; a player whose trumps include some
    outranking the winning card must play one of those; otherwise any of
    their trumps.  Who is winning the trick (the partner or not) plays no
    part, since the teammate test compares a player with a team. *)
Theorem legal_moves_trump_led (self : seat) (t : Team) (hand : list Card)
    (trump : Suit) (first : seat * Card) (rest : Pile)
    (Hled : suit (snd first) = trump) :
  let w := snd (winning_player_card trump first rest) in
  let moves := legal_moves self t hand trump (first :: rest) in
  let higher := filter (fun c => Nat.ltb (get_rank w trump) (get_rank c trump)) (of_suit trump hand) in
  suit w = trump /\
  (of_suit trump hand = [] -> moves = hand) /\
  (higher <> [] -> moves = higher) /\
  (of_suit trump hand <> [] -> higher = [] -> moves = of_suit trump hand).
Proof.
  cbv zeta. rewrite legal_moves_cons. cbv zeta. rewrite Hled, suit_eqb_refl.
  split.
  - destruct (py_max_spec (pile_key_function trump (first :: rest)) rest first) as [_ Hle].
    unfold winning_player_card.
    set (wc := py_max _ first rest) in *.
    specialize (Hle first (or_introl eq_refl)).
    unfold pile_key_function in Hle. rewrite Hled, suit_eqb_refl in Hle.
    destruct (suit_eqb (suit (snd wc)) trump) eqn:E; [now apply suit_eqb_spec|].
    exfalso. destruct (match dominant_suit (first :: rest) with
                       | Some d => suit_eqb (suit (snd wc)) d | None => false end);
      unfold tuple_gt in Hle; simpl in Hle; discriminate.
  - split; [intros H; rewrite H; reflexivity|].
    split.
    + intros Hh. destruct (of_suit trump hand) as [|c r]; [contradiction Hh; reflexivity|].
      unfold py_or. destruct (filter _ (c :: r)); [contradiction Hh; reflexivity | reflexivity].
    + intros Ht Hh. destruct (of_suit trump hand) as [|c r]; [contradiction Ht; reflexivity|].
      unfold py_or. rewrite Hh. reflexivity.
Qed.

Lemma legal_moves_trump_led_witness :
  suit (snd (0, cQH)) = HEARTS /\
  legal_moves 2 no_team [c8H; cKH; c9C] HEARTS [(0, cQH); (1, c7H)] = [cKH].
Proof.
  destruct (legal_moves_trump_led 2 no_team [c8H; cKH; c9C] HEARTS (0, cQH) [(1, c7H)] eq_refl)
    as (_ & _ & Hhi & _).
  split; [reflexivity|]. apply Hhi. discriminate.
Defined.

(** ** Playing a card *)

Lemma legal_moves_incl self t hand trump pile : incl (legal_moves self t hand trump pile) hand.
Proof.
  destruct pile as [|first rest]; [apply incl_refl|].
  rewrite legal_moves_cons. cbv zeta.
  destruct (suit_eqb (suit (snd first)) trump).
  - destruct (of_suit (suit (snd first)) hand) as [|c r] eqn:E; [apply incl_refl|].
    eapply incl_tran; [apply py_or_filter_nonempty; discriminate|].
    rewrite <- E. apply of_suit_sub.
  - destruct (of_suit (suit (snd first)) hand) as [|c r] eqn:E.
    + destruct (of_suit trump hand) as [|c r] eqn:E2; [apply incl_refl|].
      rewrite <- E2. apply of_suit_sub.
    + rewrite <- E. apply of_suit_sub.
Qed.

Lemma py_remove_in c l : In c l -> exists l', py_remove c l = Some l'.
Proof.
  induction l as [|x l IH]; simpl; intros H; [contradiction|].
  destruct (card_eqb x c) eqn:E; [eexists; reflexivity|].
  destruct H as [->|H].
  - assert (card_eqb c c = true) by (apply card_eqb_spec; reflexivity). congruence.
  - destruct (IH H) as [l' ->]. eexists; reflexivity.
Qed.

Lemma py_remove_notin c l : ~ In c l -> py_remove c l = None.
Proof.
  induction l as [|x l IH]; simpl; intros H; [reflexivity|].
  destruct (card_eqb x c) eqn:E.
  - apply card_eqb_spec in E. exfalso; apply H; left; exact E.
  - rewrite IH by tauto. reflexivity.
Qed.

Lemma for_each_send_message (ps : list seat) (m : seat -> Msg) : forall g,
  for_each ps (fun p => send_message p (m p)) g =
  (Ret tt, mkGame (cards g) (hand_of g) (queue_of g) (sent g ++ map (fun p => (p, m p)) ps)
             (team_state g) (game_trump g) (trick_pile g)).
Proof.
  induction ps as [|p ps IH]; intros g; simpl.
  - rewrite app_nil_r. destruct g; reflexivity.
  - unfold bind at 1. simpl. rewrite IH. simpl. rewrite <- app_assoc. reflexivity.
Qed.

(** [Player.ask_to_play] with a well-formed answer naming a legal card:
    one prompt listing the legal moves is sent, the answer is consumed,
    the card goes from the hand (its first occurrence) to the end of the
    trick pile, and every other seat, then the player, is told the card. *)
Theorem ask_to_play_legal (self : seat) (g : Game) (s : pystr) (rest : list pystr) (c : Card)
    (Hq : queue_of g self = s :: rest) (Hs : from_string s = Some c)
    (Hlegal : In c (legal_moves self (team_state g (team_of self)) (hand_of g self)
                      (game_trump g) (trick_pile g))) :
  exists h, py_remove c (hand_of g self) = Some h /\
    ask_to_play self g =
    (Ret tt, mkGame (cards g) (upd (hand_of g) self h) (upd (queue_of g) self rest)
               (sent g ++ [(self, MsgWhatPlaying
                              (legal_moves self (team_state g (team_of self)) (hand_of g self)
                                 (game_trump g) (trick_pile g)))]
                       ++ map (fun p => (p, MsgPlaying (S self) c)) (iter_from_next self))
               (team_state g) (game_trump g) (trick_pile g ++ [(self, c)])).
Proof.
  destruct (py_remove_in c (hand_of g self) (legal_moves_incl _ _ _ _ _ c Hlegal)) as [h Hh].
  exists h. split; [exact Hh|].
  assert (He : existsb (card_eqb c)
                 (legal_moves self (team_state g (team_of self)) (hand_of g self)
                    (game_trump g) (trick_pile g)) = true)
    by (apply existsb_exists; exists c; split; [exact Hlegal | apply card_eqb_spec; reflexivity]).
  unfold ask_to_play. erewrite bind_ret_step by reflexivity. cbv zeta.
  erewrite bind_ret_step by reflexivity.
  erewrite bind_ret_step
    by (unfold recv_message, bind, get; cbn [queue_of]; rewrite Hq; reflexivity).
  rewrite Hs, He.
  unfold plays. erewrite bind_ret_step by reflexivity.
  erewrite bind_ret_step by reflexivity. cbn [hand_of trick_pile].
  rewrite Hh. erewrite bind_ret_step by reflexivity.
  rewrite (for_each_send_message (iter_from_next self) (fun _ => MsgPlaying (S self) c)).
  cbn. rewrite <- app_assoc. reflexivity.
Qed.

Lemma ask_to_play_legal_witness :
  let g := mkGame [] (hand_of g_play) (fun _ => [card_token c7H]) [] (fun _ => mkTeam 0 false) HEARTS [] in
  queue_of g 0 = [card_token c7H] /\ from_string (card_token c7H) = Some c7H /\
  In c7H (legal_moves 0 (team_state g (team_of 0)) (hand_of g 0) (game_trump g) (trick_pile g)) /\
  exists h, py_remove c7H (hand_of g 0) = Some h /\ trick_pile (snd (ask_to_play 0 g)) = [(0, c7H)].
Proof.
  cbv zeta.
  set (g := mkGame [] (hand_of g_play) (fun _ => [card_token c7H]) [] (fun _ => mkTeam 0 false) HEARTS []).
  assert (Hq : queue_of g 0 = card_token c7H :: []) by reflexivity.
  assert (Hs : from_string (card_token c7H) = Some c7H) by reflexivity.
  assert (Hl : In c7H (legal_moves 0 (team_state g (team_of 0)) (hand_of g 0) (game_trump g) (trick_pile g)))
    by (simpl; tauto).
  destruct (ask_to_play_legal 0 g _ [] c7H Hq Hs Hl) as [h [Hh R]].
  split; [exact Hq|]. split; [exact Hs|]. split; [exact Hl|].
  exists h. split; [exact Hh|]. rewrite R. reflexivity.
Defined.

(** [Player.plays] appends to the trick pile before removing the card
    from the hand: with a card the hand does not hold, [list.remove]
    raises [ValueError] after the pile has grown, the hand is unchanged
    and nobody is told. *)
Theorem plays_card_not_in_hand (self : seat) (c : Card) (g : Game)
    (Hnot : ~ In c (hand_of g self)) :
  plays self c g =
  (Raise ValueError, mkGame (cards g) (hand_of g) (queue_of g) (sent g) (team_state g)
                       (game_trump g) (trick_pile g ++ [(self, c)])).
Proof.
  unfold plays. erewrite bind_ret_step by reflexivity.
  erewrite bind_ret_step by reflexivity. cbn [hand_of].
  rewrite (py_remove_notin c _ Hnot). reflexivity.
Qed.

Lemma plays_card_not_in_hand_witness :
  ~ In cKH (hand_of g_play 0) /\
  fst (plays 0 cKH g_play) = Raise ValueError /\ trick_pile (snd (plays 0 cKH g_play)) = [(0, cKH)].
Proof.
  assert (Hn : ~ In cKH (hand_of g_play 0)) by (simpl; intuition discriminate).
  split; [exact Hn|]. rewrite (plays_card_not_in_hand 0 cKH g_play Hn). split; reflexivity.
Defined.

(** ** A trick *)

(** One completed trick of the play loop of [Belote.start]: the pile
    holds one card of every seat, in ring order from the leader; the
    winner is the [max] of the pile, and exactly the winner's team score
    grows, by the trick's points; the contract flags are untouched. *)
Theorem play_trick_scores (w : seat) (g : Game) (w' : seat) (g' : Game)
    (Hw : w < 4) (Hrun : play_trick w g = (Ret w', g')) :
  exists first rest,
    trick_pile g' = first :: rest /\ map fst (first :: rest) = iter_from_self w /\
    w' = fst (winning_player_card (game_trump g) first rest) /\
    score (team_state g' (team_of w')) =
      score (team_state g (team_of w')) + total_score (game_trump g) (first :: rest) /\
    (forall u, u <> team_of w' -> team_state g' u = team_state g u) /\
    (forall u, has_contract (team_state g' u) = has_contract (team_state g u)).
Proof.
  revert Hrun. unfold play_trick. erewrite bind_ret_step by reflexivity.
  match goal with
  | |- bind (for_each ?ps ask_to_play) ?k ?g1 = _ -> _ =>
      destruct (for_each ps ask_to_play g1) as [[[]|e|] g2] eqn:R;
      [rewrite (bind_ret_step _ k g1 tt g2 R)
      | unfold bind; rewrite R; discriminate
      | unfold bind; rewrite R; discriminate]
  end.
  destruct (for_each_ask_to_play _ _ _ R (fun p => iter_from_self_lt w p Hw))
    as (T & U & _ & _ & l & L & F).
  cbn [trick_pile game_trump team_state] in T, U, L.
  erewrite bind_ret_step by reflexivity.
  simpl in L. rewrite L.
  destruct l as [|first rest]; [rewrite iter_from_self_seats in F by exact Hw; discriminate|].
  unfold add_score, set_team, bind, get, ret. cbn. intros H. injection H as <- <-.
  exists first, rest. cbn. rewrite L, U, T.
  split; [reflexivity|]. split; [exact F|]. split; [reflexivity|].
  unfold upd_team.
  split; [destruct (team_of _); reflexivity|].
  split.
  - intros u Hu. destruct (team_of _), u; congruence.
  - intros u. destruct (team_of _), u; reflexivity.
Qed.

Lemma play_trick_scores_witness :
  0 < 4 /\ fst (play_trick 1 g_deal) = Ret 0 /\
  exists f r, score (team_state (snd (play_trick 1 g_deal)) Team0) =
             score (team_state g_deal Team0) + total_score HEARTS (f :: r).
Proof.
  assert (Hrun : play_trick 1 g_deal = (Ret 0, snd (play_trick 1 g_deal))) by (vm_compute; reflexivity).
  destruct (play_trick_scores 1 g_deal 0 _ ltac:(lia) Hrun) as (f & r & Hp & _ & Hw & Hs & _).
  split; [lia|]. split; [rewrite Hrun; reflexivity|].
  exists f, r. exact Hs.
Defined.

(** ** Dealing keeps the cards *)

Definition card_eq_dec (a b : Card) : {a = b} + {a <> b}.
Proof. decide equality; decide equality. Defined.

(** The deck and the four hands together. *)
Definition all_cards (g : Game) : list Card :=
  cards g ++ hand_of g 0 ++ hand_of g 1 ++ hand_of g 2 ++ hand_of g 3.

Lemma count_occ_rev_card (l : list Card) x :
  count_occ card_eq_dec (rev l) x = count_occ card_eq_dec l x.
Proof. apply Permutation_count_occ. apply Permutation_sym, Permutation_rev. Qed.

Lemma deal_into_perm g p n : p < 4 -> Permutation (all_cards (deal_into g p n)) (all_cards g).
Proof.
  intros Hp. apply (Permutation_count_occ card_eq_dec). intros x.
  unfold all_cards, deal_into. cbn [cards hand_of].
  set (k := length (cards g) - n).
  assert (Hc : count_occ card_eq_dec (cards g) x =
               count_occ card_eq_dec (firstn k (cards g)) x +
               count_occ card_eq_dec (skipn k (cards g)) x)
    by (rewrite <- count_occ_app, firstn_skipn; reflexivity).
  pose proof (count_occ_rev_card (skipn k (cards g)) x) as Hr.
  unfold upd.
  do 4 (destruct p as [|p]; [cbn [Nat.eqb]; rewrite !count_occ_app in *; lia|]). lia.
Qed.

Lemma deal_body_run p n g g1 :
  (cs <- pop_many n;; add_to_hand p cs) g = (Ret tt, g1) -> g1 = deal_into g p n.
Proof.
  destruct (Nat.le_gt_cases n (length (cards g))) as [Hn|Hn].
  - rewrite (deal_step p n g Hn). intros H; injection H as <-; reflexivity.
  - destruct (pop_many_short n g Hn) as [g' R]. unfold bind. rewrite R. discriminate.
Qed.

Lemma for_each_deal_perm (nb : seat -> nat) ps : forall g g',
  (forall p, In p ps -> p < 4) ->
  for_each ps (fun p => cs <- pop_many (nb p);; add_to_hand p cs) g = (Ret tt, g') ->
  Permutation (all_cards g') (all_cards g).
Proof.
  induction ps as [|q qs IH]; intros g g' Hps H; simpl in H.
  - injection H as <-. apply Permutation_refl.
  - destruct ((cs <- pop_many (nb q);; add_to_hand q cs) g) as [[[]|e|] g1] eqn:E;
      [rewrite (bind_ret_step _ _ g tt g1 E) in H
      | rewrite (bind_raise_step _ _ g e g1 E) in H; discriminate
      | unfold bind in H at 1; rewrite E in H; discriminate].
    apply deal_body_run in E. subst g1.
    eapply Permutation_trans; [exact (IH _ _ (fun p Hp => Hps p (or_intror Hp)) H)|].
    apply deal_into_perm. apply Hps; left; reflexivity.
Qed.

(** [deal_5_cards] and [deal_remaining] only move cards from the deck to
    the hands: whenever a deal runs to completion, the deck and the four
    hands hold the same cards as before, none lost and none duplicated. *)
Theorem dealing_keeps_cards (dealer bidder : seat) (Hd : dealer < 4) (Hb : bidder < 4) :
  (forall g g', deal_5_cards dealer g = (Ret tt, g') -> Permutation (all_cards g') (all_cards g)) /\
  (forall g g', deal_remaining dealer bidder g = (Ret tt, g') ->
     Permutation (all_cards g') (all_cards g)).
Proof.
  pose proof (fun p (Hp : In p (iter_from_next dealer)) => iter_from_next_in dealer p Hd Hp) as Hin.
  split.
  - intros g g' H. unfold deal_5_cards in H.
    destruct (for_each (iter_from_next dealer)
                (fun player => cs <- pop_many 2;; add_to_hand player cs) g) as [[[]|e|] g1] eqn:E;
      [rewrite (bind_ret_step _ _ g tt g1 E) in H
      | rewrite (bind_raise_step _ _ g e g1 E) in H; discriminate
      | unfold bind in H at 1; rewrite E in H; discriminate].
    eapply Permutation_trans; [exact (for_each_deal_perm (fun _ => 3) _ _ _ Hin H)|].
    exact (for_each_deal_perm (fun _ => 2) _ _ _ Hin E).
  - intros g g' H. unfold deal_remaining in H.
    destruct (Nat.le_gt_cases 1 (length (cards g))) as [Hn|Hn].
    + set (k := length (cards g) - 1) in *.
      rewrite (bind_ret_step _ _ g (rev (skipn k (cards g))) (with_cards g (firstn k (cards g)))) in H.
      2:{ apply pop_many_top; [symmetry; apply firstn_skipn | rewrite length_skipn; unfold k; lia]. }
      unfold bind at 1 in H. rewrite add_to_hand_run in H.
      eapply Permutation_trans;
        [exact (for_each_deal_perm (fun player => if Nat.eqb player bidder then 2 else 3) _ _ _ Hin H)|].
      exact (deal_into_perm g bidder 1 Hb).
    + destruct (pop_many_short 1 g Hn) as [g1 R].
      unfold bind at 1 in H. rewrite R in H. discriminate.
Qed.

Lemma dealing_keeps_cards_witness :
  0 < 4 /\ 1 < 4 /\
  let g := mkGame full_deck (fun _ => []) (fun _ => []) [] (fun _ => mkTeam 0 false) HEARTS [] in
  Permutation (all_cards (snd (deal_5_cards 0 g))) (all_cards g).
Proof.
  destruct (dealing_keeps_cards 0 1 ltac:(lia) ltac:(lia)) as [H5 _].
  split; [lia|]. split; [lia|]. cbv zeta.
  apply H5. vm_compute. reflexivity.
Defined.

(** ** Bidding without a taker *)

Lemma existsb_nat_in x l : existsb (Nat.eqb x) l = true <-> In x l.
Proof.
  rewrite existsb_exists. split.
  - intros [y [Hy E]]. apply Nat.eqb_eq in E. subst. exact Hy.
  - intros H. exists x. split; [exact H | apply Nat.eqb_refl].
Qed.

Lemma take_phase_decline card ps : forall g,
  NoDup ps ->
  (forall p, In p ps -> exists a r, queue_of g p = a :: r /\ pystr_eqb a (py "yes"%string) = false) ->
  exists g', take_phase card ps g = (Ret None, g') /\
    cards g' = cards g /\ hand_of g' = hand_of g /\ team_state g' = team_state g /\
    game_trump g' = game_trump g /\
    (forall x, queue_of g' x = if existsb (Nat.eqb x) ps then tl (queue_of g x) else queue_of g x).
Proof.
  induction ps as [|p ps IH]; intros g Hnd Hq.
  - exists g. repeat split.
  - inversion Hnd as [|? ? Hnotin Hnd']; subst.
    destruct (Hq p (or_introl eq_refl)) as (a & rest & Eq & Ea).
    cbn [take_phase]. erewrite bind_ret_step by reflexivity.
    erewrite bind_ret_step
      by (unfold recv_message, bind, get; cbn [queue_of]; rewrite Eq; reflexivity).
    rewrite Ea.
    match goal with
    | |- exists g', take_phase card ps ?g2 = _ /\ _ => destruct (IH g2 Hnd') as (g' & R & C & H & T & U & Q)
    end.
    { intros q Hin. cbn [queue_of]. unfold upd.
      destruct (Nat.eqb q p) eqn:E; [apply Nat.eqb_eq in E; subst; contradiction|].
      apply Hq. right. exact Hin. }
    exists g'. rewrite R. split; [reflexivity|].
    cbn in C, H, T, U. split; [exact C|]. split; [exact H|]. split; [exact T|]. split; [exact U|].
    intros x. rewrite Q. cbn [queue_of existsb]. unfold upd.
    destruct (Nat.eqb x p) eqn:E.
    + apply Nat.eqb_eq in E; subst x.
      assert (existsb (Nat.eqb p) ps = false) as ->.
      { destruct (existsb (Nat.eqb p) ps) eqn:F; [|reflexivity].
        apply existsb_nat_in in F; contradiction. }
      rewrite Eq. reflexivity.
    + reflexivity.
Qed.

Lemma suit_choices_member c s :
  existsb (pystr_eqb s) (suit_choices c) = true ->
  exists su, suit_of_value s = Some su /\ su <> suit c.
Proof.
  intros H. apply existsb_exists in H as [v [Hv E]].
  apply pystr_eqb_true in E. subst v.
  unfold suit_choices in Hv. apply in_map_iff in Hv as [su [<- Hsu]].
  apply filter_In in Hsu as [_ Hne].
  exists su. split; [destruct su; reflexivity|].
  intros Heq. rewrite Heq, suit_eqb_refl in Hne. discriminate.
Qed.

Lemma choice_phase_run c ps : forall g,
  NoDup ps -> (forall p, In p ps -> queue_of g p <> []) ->
  exists g', choice_phase (suit_choices c) ps g = (Ret (first_choice g (suit_choices c) ps), g') /\
    cards g' = cards g /\ hand_of g' = hand_of g /\ team_state g' = team_state g /\
    (first_choice g (suit_choices c) ps = None -> game_trump g' = game_trump g) /\
    (forall b, first_choice g (suit_choices c) ps = Some b ->
       exists su, suit_of_value (hd [] (queue_of g b)) = Some su /\ su <> suit c /\
                  game_trump g' = su).
Proof.
  induction ps as [|p ps IH]; intros g Hnd Hq.
  - exists g. repeat split; discriminate.
  - inversion Hnd as [|? ? Hnotin Hnd']; subst.
    destruct (queue_of g p) as [|a rest] eqn:Eq; [exfalso; exact (Hq p (or_introl eq_refl) Eq)|].
    assert (Hfc : first_choice g (suit_choices c) (p :: ps) =
                  if existsb (pystr_eqb a) (suit_choices c) then Some p
                  else first_choice g (suit_choices c) ps)
      by (unfold first_choice; simpl; rewrite Eq; reflexivity).
    rewrite Hfc. cbn [choice_phase]. erewrite bind_ret_step by reflexivity.
    erewrite bind_ret_step
      by (unfold recv_message, bind, get; cbn [queue_of]; rewrite Eq; reflexivity).
    destruct (existsb (pystr_eqb a) (suit_choices c)) eqn:Ea.
    + destruct (suit_choices_member c a Ea) as [su [Hsu Hne]]. rewrite Hsu.
      erewrite bind_ret_step by reflexivity.
      match goal with
      | |- exists g', bind (broadcast ?m) ?k ?g3 = _ /\ _ =>
          destruct (broadcast_quiet m g3) as [g4 [R4 (C4 & H4 & _ & T4 & U4 & _)]];
          rewrite (bind_ret_step _ k g3 tt g4 R4)
      end.
      exists g4. split; [reflexivity|].
      rewrite C4, H4, T4, U4. cbn. split; [reflexivity|]. split; [reflexivity|].
      split; [reflexivity|]. split; [discriminate|].
      intros b Hb. injection Hb as <-. exists su. rewrite Eq. repeat split; assumption.
    + match goal with
      | |- exists g', choice_phase _ ps ?g2 = _ /\ _ =>
          destruct (IH g2 Hnd') as (g' & R' & C' & H' & T' & U' & S')
      end.
      { intros q Hin. cbn [queue_of]. unfold upd.
        destruct (Nat.eqb q p) eqn:E; [apply Nat.eqb_eq in E; subst; contradiction|].
        apply Hq; right; exact Hin. }
      match goal with
      | |- exists g', choice_phase _ ps ?g2 = _ /\ _ =>
          assert (Hf : first_choice g2 (suit_choices c) ps = first_choice g (suit_choices c) ps)
      end.
      { apply find_ext_in. intros q Hin. cbn [queue_of]. unfold upd.
        destruct (Nat.eqb q p) eqn:E; [apply Nat.eqb_eq in E; subst; contradiction|].
        reflexivity. }
      rewrite Hf in R', U', S'.
      exists g'. split; [exact R'|]. cbn in C', H', T', U'.
      split; [exact C'|]. split; [exact H'|]. split; [exact T'|]. split; [exact U'|].
      intros b Hb. destruct (S' b Hb) as (su & Hsu & Hne & Ht).
      exists su. split; [|split; assumption].
      assert (Hbp : b <> p).
      { intros ->. apply find_some in Hb as [Hin _]. contradiction. }
      cbn [queue_of] in Hsu. unfold upd in Hsu.
      apply Nat.eqb_neq in Hbp. rewrite Hbp in Hsu. exact Hsu.
Qed.

(** When nobody takes the shown card, [Belote.start] polls the seats again
    from the one after the dealer, each once, with the three other suits
    as choices: the first whose next answer is one of them becomes the
    bidder, with that suit as trump (never the shown card's suit) and the
    contract for its team; if nobody picks one, the bidding ends without a
    bidder, the scores, contract flags, deck and hands as they were. *)
Theorem bidding_suit_choice (dealer : seat) (g : Game) (pre : list Card) (c : Card)
    (Hd : dealer < 4) (Hdeck : cards g = pre ++ [c])
    (Hq : forall p, p < 4 -> exists a b r, queue_of g p = a :: b :: r /\
                                pystr_eqb a (py "yes"%string) = false) :
  let second := fun p => hd [] (tl (queue_of g p)) in
  match find (fun p => existsb (pystr_eqb (second p)) (suit_choices c)) (iter_from_next dealer) with
  | Some b => exists g' su, bidding_phase dealer g = (Ret (Some b), g') /\
                suit_of_value (second b) = Some su /\ su <> suit c /\ game_trump g' = su /\
                has_contract (team_state g' (team_of b)) = true
  | None => exists g', bidding_phase dealer g = (Ret None, g') /\
              team_state g' = team_state g /\ cards g' = cards g /\ hand_of g' = hand_of g
  end.
Proof.
  cbv zeta.
  destruct (broadcast_quiet (MsgTheCard c) g) as [ga [Ra Qa]].
  destruct (send_hands_quiet ga) as [gb [Rb Qb]].
  destruct (quiet_trans _ _ _ Qa Qb) as (Cb & Hb & QQb & Tb & Ub & Pb).
  pose proof (iter_from_next_NoDup dealer Hd) as Hnd.
  pose proof (fun p Hp => iter_from_next_in dealer p Hd Hp) as Hin.
  destruct (take_phase_decline c (iter_from_next dealer) gb Hnd) as (gc & Rc & Cc & Hc & Tc & Uc & Qc).
  { intros p Hp. rewrite QQb. destruct (Hq p (Hin p Hp)) as (a & b & r & E & Ea).
    exists a, (b :: r). split; assumption. }
  destruct (choice_phase_run c (iter_from_next dealer) gc Hnd) as (gd & Rd & Cd & Hdd & Td & Ud & Sd).
  { intros p Hp. rewrite Qc. apply existsb_nat_in in Hp as Hp'. rewrite Hp', QQb.
    destruct (Hq p (Hin p Hp)) as (a & b & r & E & _). rewrite E. discriminate. }
  assert (Hf : first_choice gc (suit_choices c) (iter_from_next dealer) =
               find (fun p => existsb (pystr_eqb (hd [] (tl (queue_of g p)))) (suit_choices c))
                 (iter_from_next dealer)).
  { apply find_ext_in. intros p Hp. rewrite Qc. apply existsb_nat_in in Hp. rewrite Hp, QQb.
    reflexivity. }
  rewrite Hf in Rd, Ud, Sd.
  assert (Hrun : bidding_phase dealer g =
                 bind (suit_choice_phase dealer c) finish_bidding gc).
  { unfold bidding_phase.
    rewrite (bind_ret_step _ _ g c g (peek_snoc g pre c Hdeck)).
    rewrite (bind_ret_step _ _ g tt ga Ra).
    rewrite (bind_ret_step _ _ ga tt gb Rb).
    rewrite (bind_ret_step _ _ gb _ gc Rc).
    reflexivity. }
  unfold suit_choice_phase in Hrun. rewrite (bind_ret_step _ _ gc _ gd Rd) in Hrun.
  destruct (find _ (iter_from_next dealer)) as [b|] eqn:Eb.
  - destruct (Sd b eq_refl) as (su & Hsu & Hne & Ht).
    rewrite Qc in Hsu. apply find_some in Eb as [Hb' _].
    apply existsb_nat_in in Hb' as Hb''. rewrite Hb'', QQb in Hsu.
    rewrite Hrun. cbn. eexists _, su. split; [reflexivity|].
    split; [exact Hsu|]. split; [exact Hne|]. split; [exact Ht|].
    unfold upd_team. destruct (team_of b); reflexivity.
  - rewrite Hrun. cbn. eexists. split; [reflexivity|].
    split; [congruence|]. split; [congruence|]. congruence.
Qed.

Lemma bidding_suit_choice_witness :
  0 < 4 /\ cards g_decline = removelast (firstn 12 full_deck) ++ [mkCard QUEEN CLUBS] /\
  exists g' su, bidding_phase 0 g_decline = (Ret (Some 1), g') /\ su <> CLUBS /\ game_trump g' = su /\
    has_contract (team_state g' Team1) = true.
Proof.
  assert (Hdeck : cards g_decline = removelast (firstn 12 full_deck) ++ [mkCard QUEEN CLUBS])
    by reflexivity.
  assert (Hq : forall p, p < 4 -> exists a b r, queue_of g_decline p = a :: b :: r /\
                                   pystr_eqb a (py "yes"%string) = false)
    by (intros p _; do 3 eexists; split; reflexivity).
  pose proof (bidding_suit_choice 0 g_decline _ _ ltac:(lia) Hdeck Hq) as H.
  cbv beta zeta in H.
  assert (Ef : find (fun p => existsb (pystr_eqb (hd [] (tl (queue_of g_decline p))))
                                (suit_choices (mkCard QUEEN CLUBS))) (iter_from_next 0) = Some 1)
    by reflexivity.
  rewrite Ef in H. destruct H as (g' & su & R & _ & Hne & Ht & Hc).
  split; [lia|]. split; [exact Hdeck|].
  exists g', su. split; [exact R|]. split; [exact Hne|]. split; [exact Ht | exact Hc].
Defined.

Lemma find_all_false {A} (f : A -> bool) (l : list A) :
  (forall x, In x l -> f x = false) -> find f l = None.
Proof.
  induction l as [|x l IH]; intros H; simpl; [reflexivity|].
  rewrite (H x (or_introl eq_refl)). apply IH. intros y Hy; apply H; right; exact Hy.
Qed.

(** [Belote.start] when every seat declines the shown card and then
    answers something that is not a suit: after the first five cards are
    dealt the bidding finds no bidder and [start] simply returns (the
    source leaves the new deal for later), with 12 cards still in the
    deck, five cards in every hand and no contract or score changed. *)
Theorem start_without_bidder (dealer : seat) (g : Game)
    (Hd : dealer < 4) (Hlen : length (cards g) = 32)
    (Hq : forall p, p < 4 -> exists a b r, queue_of g p = a :: b :: r /\
            pystr_eqb a (py "yes"%string) = false /\ suit_of_value b = None) :
  exists g', start dealer g = (Ret tt, g') /\ length (cards g') = 12 /\
    (forall p, p < 4 -> length (hand_of g' p) = length (hand_of g p) + 5) /\
    team_state g' = team_state g.
Proof.
  destruct (broadcast_quiet (MsgDealer (S dealer)) g) as [ga [Ra (Ca & Ha & Qa & Ta & _ & _)]].
  destruct (deal_5_cards_run dealer ga Hd) as (g1 & R1 & L1 & H1 & Q1 & _ & T1 & _ & _).
  { rewrite Ca, Hlen. lia. }
  assert (Hne : cards g1 <> []) by (intros E; rewrite E, Ca, Hlen in L1; discriminate).
  destruct (exists_last Hne) as (pre & c & Hdeck).
  assert (Hq1 : forall p, p < 4 -> exists a b r, queue_of g1 p = a :: b :: r /\
                                    pystr_eqb a (py "yes"%string) = false).
  { intros p Hp. destruct (Hq p Hp) as (a & b & r & E & Ea & _).
    exists a, b, r. rewrite Q1, Qa. split; assumption. }
  pose proof (bidding_suit_choice dealer g1 pre c Hd Hdeck Hq1) as Hbid.
  cbv beta zeta in Hbid.
  rewrite find_all_false in Hbid.
  2:{ intros p Hp. rewrite Q1, Qa.
      destruct (Hq p (iter_from_next_in dealer p Hd Hp)) as (a & b & r & E & _ & Hb).
      rewrite E. simpl.
      destruct (existsb (pystr_eqb b) (suit_choices c)) eqn:Eb; [|reflexivity].
      destruct (suit_choices_member c b Eb) as [su [Hsu _]]. congruence. }
  destruct Hbid as (g2 & R2 & T2 & C2 & H2).
  exists g2. unfold start.
  rewrite (bind_ret_step _ _ g tt ga Ra), (bind_ret_step _ _ ga tt g1 R1),
    (bind_ret_step _ _ g1 None g2 R2).
  split; [reflexivity|].
  split; [rewrite C2, L1, Ca, Hlen; reflexivity|].
  split; [intros p Hp; rewrite H2, H1, Ha by exact Hp; reflexivity|].
  rewrite T2, T1, Ta. reflexivity.
Qed.

Lemma start_without_bidder_witness :
  let g := mkGame full_deck (fun _ => []) (fun _ => [py "no"%string; py "pass"%string]) []
             (fun _ => mkTeam 0 false) HEARTS [] in
  0 < 4 /\ length (cards g) = 32 /\
  exists g', start 0 g = (Ret tt, g') /\ length (cards g') = 12 /\ team_state g' = team_state g.
Proof.
  cbv zeta.
  set (g := mkGame full_deck (fun _ => []) (fun _ => [py "no"%string; py "pass"%string]) []
              (fun _ => mkTeam 0 false) HEARTS []).
  assert (Hq : forall p, p < 4 -> exists a b r, queue_of g p = a :: b :: r /\
            pystr_eqb a (py "yes"%string) = false /\ suit_of_value b = None)
    by (intros p _; do 3 eexists; split; [reflexivity | split; reflexivity]).
  destruct (start_without_bidder 0 g ltac:(lia) eq_refl Hq) as (g' & R & L & _ & T).
  split; [lia|]. split; [reflexivity|]. exists g'. split; [exact R|]. split; [exact L | exact T].
Defined.

(** ** Contract flags *)
























